(** * Browser agent control surface: the task session controller of web/app.js

    A shallow embedding of the second (localized) variant of [web/app.js]:
    the localization table and its resolution, the log line derivation, the
    stream listeners, the run / confirm / stop click handlers and the
    provider and model settings handlers, followed by the properties the
    specification states about them.

    Conventions of the embedding.
    - A JS string is a [string] holding its UTF-8 bytes.
    - A number is a binary64 value; a numeric literal of JSON denotes the
      double nearest to it, and numbers are printed as [Number::toString]
      and [toFixed] print them.
    - A value decoded from JSON is a [value] other than [VUndefined] and
      [VBuiltin]; these two come from reading a property.
    - An object literal used as a dictionary is a finite map over its own
      property names; a lookup that finds no own property goes on to the
      members of [Object.prototype].
    - Converting a value to text can throw.
    - [JSON.parse] is represented by its outcome on the text it is given.
    - A listener builds what it prints before its first assignment, so the
      outcome of one that throws carries no state; the run handler can throw
      after it has assigned, and its outcome carries the state it leaves. *)

From Stdlib Require Import ZArith SpecFloat Lia.
From stdpp Require Import base option strings pretty list gmap.

#[local] Set Warnings "-register-all".
Local Open Scope string_scope.

(** ** JavaScript values *)

Module JS.

(** The built-in objects a lookup on an object literal can run into: the
    prototype of the literal, the prototype of functions, and built-in
    functions, told apart by their [name]. *)
Inductive builtin : Type :=
| ObjectPrototype
| FunctionPrototype
| NativeFunction (name : string).

Inductive value : Type :=
| VUndefined
| VNull
| VBool (b : bool)
| VNum (x : spec_float)
| VStr (s : string)
| VArr (items : list value)
| VObj (props : list (string * value))
| VBuiltin (b : builtin).

(** The exceptions the handlers can raise. *)
Inductive exn : Type := SyntaxError | TypeError.

Inductive result (A : Type) : Type :=
| Ok (a : A)
| Throw (e : exn).
Arguments Ok {A} a.
Arguments Throw {A} e.

#[export] Instance result_ret : MRet result := fun _ a => Ok a.
#[export] Instance result_bind : MBind result := fun _ _ f m =>
  match m with Ok a => f a | Throw e => Throw e end.

Definition nonempty (s : string) : bool := negb (String.eqb s "").

(** *** Numbers

    A number is a binary64 value, [m * 2^e] when finite. *)

(** The finite positive [m * 2^e] as a fraction. *)
Definition fraction (m : positive) (e : Z) : Z * Z :=
  if (0 <=? e)%Z then (Z.pos m * 2 ^ e, 1)%Z else (Z.pos m, 2 ^ (- e))%Z.

(** [floor (log2 (P / Q))], for positive [P] and [Q]. *)
Definition log2_ratio (P Q : Z) : Z :=
  let t0 := (Z.log2 P - Z.log2 Q)%Z in
  if (if (0 <=? t0)%Z then (Q * 2 ^ t0 <=? P)%Z else (Q <=? P * 2 ^ (- t0))%Z)
  then t0 else (t0 - 1)%Z.

(** The integer nearest to [A / B], the even one on a tie. *)
Definition round_half_even (A B : Z) : Z :=
  let q := (A / B)%Z in
  let r := (A mod B)%Z in
  if (2 * r <? B)%Z then q
  else if (B <? 2 * r)%Z then (q + 1)%Z
  else if Z.even q then q else (q + 1)%Z.

(** The double nearest to [P / Q], for positive [P] and [Q]: 53 bits of
    mantissa, ties to the even mantissa, exponent not below -1074, infinity
    past the largest finite double. *)
Definition nearest (P Q : Z) : spec_float :=
  let e := Z.max (log2_ratio P Q - 52) (-1074) in
  let M := if (0 <=? e)%Z then round_half_even P (Q * 2 ^ e)
           else round_half_even (P * 2 ^ (- e)) Q in
  let '(M, e) := if (M =? 2 ^ 53)%Z then (2 ^ 52, e + 1)%Z else (M, e) in
  if (M =? 0)%Z then S754_zero false
  else if (971 <? e)%Z then S754_infinity false
  else S754_finite false (Z.to_pos M) e.

(** The number a JSON numeric literal [s * 10^j] is parsed to. *)
Definition decimal (s j : Z) : spec_float :=
  let magnitude a :=
    if (0 <=? j)%Z then nearest (a * 10 ^ j) 1 else nearest a (10 ^ (- j)) in
  match s with
  | Z0 => S754_zero false
  | Zpos _ => magnitude s
  | Zneg _ => SFopp (magnitude (- s)%Z)
  end.

Definition integer (n : Z) : spec_float := decimal n 0.

Definition signed (s : bool) (x : spec_float) : spec_float :=
  if s then SFopp x else x.

(** [x / y] *)
Definition div (x y : spec_float) : spec_float :=
  match x, y with
  | S754_nan, _ | _, S754_nan => S754_nan
  | S754_infinity _, S754_infinity _ => S754_nan
  | S754_zero _, S754_zero _ => S754_nan
  | S754_infinity sx, S754_zero sy
  | S754_infinity sx, S754_finite sy _ _
  | S754_finite sx _ _, S754_zero sy => S754_infinity (xorb sx sy)
  | S754_zero sx, S754_infinity sy
  | S754_zero sx, S754_finite sy _ _
  | S754_finite sx _ _, S754_infinity sy => S754_zero (xorb sx sy)
  | S754_finite sx mx ex, S754_finite sy my ey =>
      let '(a, b) := fraction mx ex in
      let '(c, d) := fraction my ey in
      signed (xorb sx sy) (nearest (a * d) (b * c))
  end.

(** A finite number as a signed fraction. *)
Definition signed_fraction (x : spec_float) : Z * Z :=
  match x with
  | S754_finite s m e =>
      let '(a, b) := fraction m e in ((if s then - a else a)%Z, b)
  | _ => (0, 1)%Z
  end.

(** [x >= y] *)
Definition geb (x y : spec_float) : bool :=
  match x, y with
  | S754_nan, _ | _, S754_nan => false
  | S754_infinity false, _ => true
  | _, S754_infinity true => true
  | S754_infinity true, _ => false
  | _, S754_infinity false => false
  | _, _ =>
      let '(a, b) := signed_fraction x in
      let '(c, d) := signed_fraction y in
      (c * b <=? a * d)%Z
  end.

(** The number of decimal digits of a positive integer. *)
Definition ndigits (z : Z) : Z := Z.of_nat (String.length (pretty z)).

(** The [n] with [10^(n-1) <= a / b < 10^n], for positive [a] and [b]. *)
Definition magnitude (a b : Z) : Z :=
  if (b <=? a)%Z then ndigits (a / b)
  else
    let d := ndigits (b / a) in
    if (a * 10 ^ (d - 1) <? b)%Z then (1 - d)%Z else (2 - d)%Z.

(** Whether two numbers that are not NaN are the same number. *)
Definition same (x y : spec_float) : bool :=
  match x, y with
  | S754_zero _, S754_zero _ => true
  | S754_infinity s, S754_infinity s' => Bool.eqb s s'
  | S754_finite s m e, S754_finite s' m' e' =>
      Bool.eqb s s' && (Z.pos m =? Z.pos m')%Z && (e =? e')%Z
  | _, _ => false
  end.

(** Number::toString, step 5: the integers [s] of [k] digits next to
    [a / b * 10^(k - n)] that are read back as [x]; of two, the nearer one,
    the even one on a tie. The result is that [s] with its [n]. *)
Definition candidates (x : spec_float) (a b n k : Z) : option (Z * Z) :=
  let sh := (k - n)%Z in
  let '(A, B) := if (0 <=? sh)%Z then (a * 10 ^ sh, b)%Z else (a, b * 10 ^ (- sh))%Z in
  let lo := (A / B)%Z in
  let hi := (lo + 1)%Z in
  let reads_back s := same (decimal s (n - k)) x in
  let upper := if (hi =? 10 ^ k)%Z then (10 ^ (k - 1), n + 1)%Z else (hi, n) in
  match reads_back lo, reads_back hi with
  | true, false => Some (lo, n)
  | false, true => Some upper
  | false, false => None
  | true, true =>
      let dl := (A - lo * B)%Z in
      let dh := (hi * B - A)%Z in
      if (dl <? dh)%Z then Some (lo, n)
      else if (dh <? dl)%Z then Some upper
      else if Z.even lo then Some (lo, n) else Some upper
  end.

(** The least number of digits with such an [s]; 17 digits always do. *)
Fixpoint shortest (fuel : nat) (x : spec_float) (a b n k : Z) : Z * Z * Z :=
  match fuel with
  | O => (0, n, k)%Z
  | S fuel' =>
      match candidates x a b n k with
      | Some (s, n') => (s, n', k)
      | None => shortest fuel' x a b n (k + 1)%Z
      end
  end.

Definition zeros (n : Z) : string := String.concat "" (replicate (Z.to_nat n) "0").
Definition take (n : Z) (s : string) : string := String.substring 0 (Z.to_nat n) s.
Definition drop (n : Z) (s : string) : string :=
  String.substring (Z.to_nat n) (String.length s - Z.to_nat n) s.

(** Number::toString of the finite positive [m * 2^e]. *)
Definition positive_toString (m : positive) (e : Z) : string :=
  let '(a, b) := fraction m e in
  let '(s, n, k) := shortest 17 (S754_finite false m e) a b (magnitude a b) 1 in
  let ds := pretty s in
  if ((k <=? n) && (n <=? 21))%Z then ds +:+ zeros (n - k)
  else if ((0 <? n) && (n <=? 21))%Z then take n ds +:+ "." +:+ drop n ds
  else if ((-6 <? n) && (n <=? 0))%Z then "0." +:+ zeros (- n) +:+ ds
  else
    let ex := (if (0 <=? n - 1)%Z then "+" else "-") +:+ pretty (Z.abs (n - 1)) in
    if (k =? 1)%Z then ds +:+ "e" +:+ ex
    else take 1 ds +:+ "." +:+ drop 1 ds +:+ "e" +:+ ex.

(** Number::toString *)
Definition Number_toString (x : spec_float) : string :=
  match x with
  | S754_nan => "NaN"
  | S754_zero _ => "0"
  | S754_infinity s => if s then "-Infinity" else "Infinity"
  | S754_finite s m e => (if s then "-" else "") +:+ positive_toString m e
  end.

(** [x.toFixed(1)]: the decimal [n / 10] nearest to [x], the larger [n] on a
    tie; from 10^21 up, and for what is not finite, the text of the number
    itself. *)
Definition toFixed1 (x : spec_float) : string :=
  match x with
  | S754_finite s m e =>
      let '(a, b) := fraction m e in
      (if s then "-" else "") +:+
      (if (10 ^ 21 * b <=? a)%Z then positive_toString m e
       else
         let n := ((20 * a + b) / (2 * b))%Z in
         pretty (n / 10)%Z +:+ "." +:+ pretty (n mod 10)%Z)
  | S754_zero _ => "0.0"
  | _ => Number_toString x
  end.

(** *** Conversions *)

(** ToBoolean. *)
Definition truthy (v : value) : bool :=
  match v with
  | VUndefined | VNull => false
  | VBool b => b
  | VNum (S754_zero _) | VNum S754_nan => false
  | VNum _ => true
  | VStr s => nonempty s
  | VArr _ | VObj _ | VBuiltin _ => true
  end.

(** [a || b] *)
Definition or (a b : value) : value := if truthy a then a else b.

Definition has_own (k : string) (props : list (string * value)) : bool :=
  existsb (fun p => String.eqb k (fst p)) props.

(** The source text of a built-in function, as V8 and JavaScriptCore print
    it. *)
Definition builtin_text (b : builtin) : string :=
  match b with
  | ObjectPrototype => "[object Object]"
  | FunctionPrototype => "function () { [native code] }"
  | NativeFunction name => "function " +:+ name +:+ "() { [native code] }"
  end.

(** ToString, as template literals, [Array.prototype.join] and property
    keys apply it. An object decoded from JSON that has an entry [toString]
    of its own has no callable [toString], and the [valueOf] it falls back
    to gives no primitive: the conversion throws. *)
Fixpoint ToString (v : value) : result string :=
  match v with
  | VUndefined => Ok "undefined"
  | VNull => Ok "null"
  | VBool b => Ok (if b then "true" else "false")
  | VNum x => Ok (Number_toString x)
  | VStr s => Ok s
  | VArr items =>
      match
        (fix each (l : list value) : result (list string) :=
           match l with
           | [] => Ok []
           | x :: l' =>
               match (match x with
                      | VUndefined | VNull => Ok ""
                      | _ => ToString x
                      end) with
               | Ok sx =>
                   match each l' with
                   | Ok r => Ok (sx :: r)
                   | Throw e => Throw e
                   end
               | Throw e => Throw e
               end
           end) items
      with
      | Ok parts => Ok (String.concat "," parts)
      | Throw e => Throw e
      end
  | VObj props =>
      if has_own "toString" props then Throw TypeError else Ok "[object Object]"
  | VBuiltin b => Ok (builtin_text b)
  end.

(** The conversion of a value for which it cannot throw. *)
Definition to_string (v : value) : string :=
  match ToString v with
  | Ok u => u
  | Throw _ => "[object Object]"
  end.

(** [parts.join(sep)] *)
Fixpoint join_each (parts : list value) : result (list string) :=
  match parts with
  | [] => Ok []
  | x :: rest =>
      sx ← match x with
           | VUndefined | VNull => Ok ""
           | _ => ToString x
           end;
      r ← join_each rest;
      mret (sx :: r)
  end.

Definition join (sep : string) (parts : list value) : result string :=
  texts ← join_each parts;
  mret (String.concat sep texts).

Fixpoint assoc (k : string) (props : list (string * value)) : value :=
  match props with
  | [] => VUndefined
  | (k', v) :: rest => if String.eqb k k' then v else assoc k rest
  end.

(** [v.k], for the names the handlers read off a payload, none of which a
    prototype has: reading a property of [undefined] or [null] is a
    TypeError; a primitive or an array has none of them. *)
Definition get (v : value) (k : string) : result value :=
  match v with
  | VUndefined | VNull => Throw TypeError
  | VObj props => Ok (assoc k props)
  | _ => Ok VUndefined
  end.

(** The same read on a value already known to be an object or a primitive
    other than [undefined] and [null]. *)
Definition field (v : value) (k : string) : value :=
  match v with
  | VObj props => assoc k props
  | _ => VUndefined
  end.

(** A text handed to [JSON.parse], by what the parse makes of it. *)
Inductive text : Type :=
| NotJson
| Json (v : value).

Definition JSON_parse (x : text) : result value :=
  match x with
  | NotJson => Throw SyntaxError
  | Json v => Ok v
  end.

(** *** Properties an object literal inherits *)

(** The function members of [Object.prototype]. *)
Definition object_prototype_functions : list string :=
  [ "constructor"; "__defineGetter__"; "__defineSetter__"; "hasOwnProperty";
    "__lookupGetter__"; "__lookupSetter__"; "isPrototypeOf";
    "propertyIsEnumerable"; "toString"; "valueOf"; "toLocaleString" ].

(** [Object.prototype.constructor] is the function [Object]; the other
    members go by their own name. *)
Definition member_name (k : string) : string :=
  if String.eqb k "constructor" then "Object" else k.

(** What an object literal without an own property [k] answers for [k]:
    the member of [Object.prototype], [__proto__] being the prototype
    itself. *)
Definition inherited (k : string) : value :=
  if String.eqb k "__proto__" then VBuiltin ObjectPrototype
  else if bool_decide (k ∈ object_prototype_functions)
       then VBuiltin (NativeFunction (member_name k))
       else VUndefined.

(** [literal[k]], given the own property of that name if there is one. *)
Definition lookup (own : option value) (k : string) : value :=
  match own with
  | Some v => v
  | None => inherited k
  end.

(** The static methods of [Object]. *)
Definition object_statics : list string :=
  [ "assign"; "create"; "defineProperties"; "defineProperty"; "entries";
    "freeze"; "fromEntries"; "getOwnPropertyDescriptor";
    "getOwnPropertyDescriptors"; "getOwnPropertyNames";
    "getOwnPropertySymbols"; "getPrototypeOf"; "groupBy"; "hasOwn"; "is";
    "isExtensible"; "isFrozen"; "isSealed"; "keys"; "preventExtensions";
    "seal"; "setPrototypeOf"; "values" ].

(** The [length] of the built-in functions that need two or more
    arguments, or none; the others take one. *)
Definition arity (name : string) : Z :=
  if bool_decide (name ∈ ["toString"; "valueOf"; "toLocaleString"]) then 0
  else if bool_decide (name ∈ ["__defineGetter__"; "__defineSetter__"; "assign";
                               "create"; "defineProperties";
                               "getOwnPropertyDescriptor"; "groupBy"; "hasOwn";
                               "is"; "setPrototypeOf"; "apply"]) then 2
  else if String.eqb name "defineProperty" then 3
  else 1.

(** A member of [Function.prototype] read through a function. [caller] and
    [arguments] are accessors that throw. *)
Definition function_member (k : string) : result value :=
  if bool_decide (k ∈ ["caller"; "arguments"]) then Throw TypeError
  else if bool_decide (k ∈ ["apply"; "bind"; "call"; "toString"])
       then Ok (VBuiltin (NativeFunction k))
  else if String.eqb k "constructor" then Ok (VBuiltin (NativeFunction "Function"))
  else if String.eqb k "__proto__" then Ok (VBuiltin FunctionPrototype)
  else Ok (inherited k).

(** [b[k]] on a built-in object. *)
Definition builtin_get (b : builtin) (k : string) : result value :=
  match b with
  | ObjectPrototype =>
      if String.eqb k "__proto__" then Ok VNull else Ok (inherited k)
  | FunctionPrototype =>
      if String.eqb k "length" then Ok (VNum (integer 0))
      else if String.eqb k "name" then Ok (VStr "")
      else if String.eqb k "__proto__" then Ok (VBuiltin ObjectPrototype)
      else function_member k
  | NativeFunction name =>
      if String.eqb k "length" then Ok (VNum (integer (arity name)))
      else if String.eqb k "name" then Ok (VStr name)
      else if String.eqb name "Object" && String.eqb k "prototype"
           then Ok (VBuiltin ObjectPrototype)
      else if String.eqb name "Function" && String.eqb k "prototype"
           then Ok (VBuiltin FunctionPrototype)
      else if String.eqb name "Object" && bool_decide (k ∈ object_statics)
           then Ok (VBuiltin (NativeFunction k))
      else function_member k
  end.

(** *** [String.prototype.trim] *)

(** The byte sequences of the characters [trim] strips: WhiteSpace and
    LineTerminator. *)
Definition byte (n : nat) : string := String (Ascii.ascii_of_nat n) "".
Definition bytes (l : list nat) : string :=
  List.fold_right (fun n s => String (Ascii.ascii_of_nat n) s) "" l.

Definition whitespace : list string :=
  [ byte 9; byte 10; byte 11; byte 12; byte 13; byte 32;
    bytes [194; 160]; bytes [225; 154; 128];
    bytes [226; 128; 128]; bytes [226; 128; 129]; bytes [226; 128; 130];
    bytes [226; 128; 131]; bytes [226; 128; 132]; bytes [226; 128; 133];
    bytes [226; 128; 134]; bytes [226; 128; 135]; bytes [226; 128; 136];
    bytes [226; 128; 137]; bytes [226; 128; 138];
    bytes [226; 128; 168]; bytes [226; 128; 169]; bytes [226; 128; 175];
    bytes [226; 129; 159]; bytes [227; 128; 128]; bytes [239; 187; 191] ].

Fixpoint strip_prefix (p s : string) : option string :=
  match p, s with
  | EmptyString, _ => Some s
  | String a p', String b s' =>
      if Ascii.eqb a b then strip_prefix p' s' else None
  | String _ _, EmptyString => None
  end.

Fixpoint strip_any (ps : list string) (s : string) : option string :=
  match ps with
  | [] => None
  | p :: ps' =>
      match strip_prefix p s with
      | Some rest => Some rest
      | None => strip_any ps' s
      end
  end.

Fixpoint trim_start_fuel (fuel : nat) (ws : list string) (s : string) : string :=
  match fuel with
  | O => s
  | S fuel' =>
      match strip_any ws s with
      | Some rest => trim_start_fuel fuel' ws rest
      | None => s
      end
  end.

Definition trimStart (s : string) : string :=
  trim_start_fuel (String.length s) whitespace s.

Definition trimEnd (s : string) : string :=
  String.rev
    (trim_start_fuel (String.length s) (List.map String.rev whitespace)
       (String.rev s)).

Definition trim (s : string) : string := trimEnd (trimStart s).

End JS.

Import JS.
(** ** Localization overlay *)

Definition I18N_en : list (string * string) :=
  [("title", "Browser Agent MVP");
    ("hint", "Enter a multi-step task and watch the browser.");
    ("settings_title", "Settings");
    ("label_theme", "Theme");
    ("theme_light", "Light");
    ("theme_dark", "Dark");
    ("label_search_engine", "Search engine");
    ("label_provider", "LLM provider");
    ("label_model", "Model");
    ("label_safe_mode", "Safe mode");
    ("label_browser_only", "Browser-only");
    ("tooltip_safe_mode", "Safe: isolated .browser-data profile, no logins. Unsafe: uses your browser profile (set UNSAFE_BROWSER_USER_DATA_DIR in .env, browser must be closed). Risk of profile corruption.");
    ("tooltip_browser_only", "When enabled, the agent acts only via the browser. When disabled, it can answer directly in the console if no explicit browser task is given.");
    ("tab_agent", "Agent");
    ("tab_models", "Models");
    ("button_run", "Run");
    ("button_confirm", "Confirm / Continue");
    ("button_stop", "Stop");
    ("status_idle", "Idle");
    ("status_starting", "Starting task...");
    ("status_wait_confirm", "Waiting for confirmation");
    ("status_wait_user", "Waiting for user input");
    ("status_prefix", "Status:");
    ("status_running", "running");
    ("status_waiting_confirm", "waiting_confirm");
    ("status_waiting_user", "waiting_user");
    ("status_done", "done");
    ("status_stopped", "stopped");
    ("status_error", "error");
    ("status_queued", "queued");
    ("prompt_placeholder", "Example: Open wikipedia.org, search for Ada Lovelace, summarize 3 facts.");
    ("log_confirm", "CONFIRM REQUIRED");
    ("log_user_input", "USER INPUT NEEDED");
    ("log_result", "RESULT");
    ("log_event_error", "Event stream error or closed.");
    ("log_failed_start", "Failed to start");
    ("alert_enter_task", "Enter a task prompt.");
    ("label_user_reply", "User reply");
    ("hint_user_reply", "Type your reply and click Confirm / Continue.");
    ("user_reply_placeholder", "Type your reply here.");
    ("alert_enter_reply", "Enter a reply for the agent.");
    ("action_navigate", "navigating");
    ("action_click", "clicking");
    ("action_type", "typing");
    ("action_extract", "analyzing");
    ("action_snapshot", "scanning");
    ("action_scroll", "scrolling");
    ("action_wait", "waiting");
    ("action_back", "back");
    ("action_forward", "forward");
    ("action_ask_user", "asking");
    ("action_finish", "finishing");
    ("action_stop_task", "stopping");
    ("action_take_screenshot", "screenshot");
    ("action_save_trace", "tracing");
    ("action_think", "thinking");
    ("action_access", "blocked");
    ("action_loop_guard", "stuck");
    ("action_user_input", "reply");
    ("action_tokens", "tokens");
    ("action_guard", "rerouting")].

Definition I18N_ru : list (string * string) :=
  [("title", "Browser Agent MVP");
    ("hint", "Введите задачу и наблюдайте за браузером.");
    ("settings_title", "Настройки");
    ("label_theme", "Тема");
    ("theme_light", "Светлая");
    ("theme_dark", "Темная");
    ("label_search_engine", "Поисковик");
    ("label_provider", "Провайдер LLM");
    ("label_model", "Модель");
    ("label_safe_mode", "Безопасная работа");
    ("label_browser_only", "Только браузер");
    ("tooltip_safe_mode", "Вкл: изолированный профиль .browser-data, входы не используются. Выкл: профиль браузера (укажите путь в .env: UNSAFE_BROWSER_USER_DATA_DIR, браузер должен быть закрыт). Есть риск повредить профиль.");
    ("tooltip_browser_only", "При включенном режиме агент выполняет задачи только через браузер. При выключенном — может отвечать прямо в консоли ниже, если нет явной задачи.");
    ("tab_agent", "Агент");
    ("tab_models", "Модели");
    ("button_run", "Запустить");
    ("button_confirm", "Подтвердить / Продолжить");
    ("button_stop", "Остановить");
    ("status_idle", "Ожидание");
    ("status_starting", "Запуск задачи...");
    ("status_wait_confirm", "Ожидание подтверждения");
    ("status_wait_user", "Ожидание ввода");
    ("status_prefix", "Статус:");
    ("status_running", "в работе");
    ("status_waiting_confirm", "ожидает подтверждения");
    ("status_waiting_user", "ожидает ввода");
    ("status_done", "готово");
    ("status_stopped", "остановлено");
    ("status_error", "ошибка");
    ("status_queued", "в очереди");
    ("prompt_placeholder", "Пример: откройте wikipedia.org, найдите Ada Lovelace и кратко перескажите 3 факта.");
    ("log_confirm", "ТРЕБУЕТСЯ ПОДТВЕРЖДЕНИЕ");
    ("log_user_input", "ТРЕБУЕТСЯ ВВОД");
    ("log_result", "РЕЗУЛЬТАТ");
    ("log_event_error", "Ошибка потока событий или он закрыт.");
    ("log_failed_start", "Не удалось стартовать");
    ("alert_enter_task", "Введите задачу.");
    ("label_user_reply", "Ответ пользователю");
    ("hint_user_reply", "Введите ответ и нажмите Confirm / Continue.");
    ("user_reply_placeholder", "Введите ответ здесь.");
    ("alert_enter_reply", "Введите ответ для агента.");
    ("action_navigate", "перехожу");
    ("action_click", "кликаю");
    ("action_type", "ввожу");
    ("action_extract", "анализирую");
    ("action_snapshot", "осматриваю");
    ("action_scroll", "листаю");
    ("action_wait", "жду");
    ("action_back", "назад");
    ("action_forward", "вперёд");
    ("action_ask_user", "спрашиваю");
    ("action_finish", "завершаю");
    ("action_stop_task", "останавливаю");
    ("action_take_screenshot", "скриншот");
    ("action_save_trace", "трассирую");
    ("action_think", "думаю");
    ("action_access", "нет доступа");
    ("action_loop_guard", "застрял");
    ("action_user_input", "ответ");
    ("action_tokens", "токены");
    ("action_guard", "перенаправляю")].

Definition I18N : gmap string (gmap string string) :=
  list_to_map [("en", list_to_map I18N_en); ("ru", list_to_map I18N_ru)].

(** A table entry or [undefined], read as a condition. *)
Definition present (e : option string) : bool :=
  match e with
  | Some s => nonempty s
  | None => false
  end.

(** The own entry of the table of a language, if there is such a table and
    such an entry. *)
Definition entry (lang key : string) : option string :=
  match I18N !! lang with
  | Some table => table !! key
  | None => None
  end.

(** [t(key)] at the calls of the script, where the key is written out in
    the source and is a key of the English table: the entry of the current
    language, else the English one. [t_of] below is the function on any
    argument; the two agree on the keys of the table, whatever the value of
    [currentLang] ([t_of_table_key]). *)
Definition t (currentLang key : string) : string :=
  if present (entry currentLang key) then default key (entry currentLang key)
  else if present (entry "en" key) then default key (entry "en" key)
  else key.

(** [table[k]] on one of the two tables of [I18N]. *)
Definition table_get (table : gmap string string) (k : string) : value :=
  lookup (VStr <$> table !! k) k.

(** [I18N[currentLang] && I18N[currentLang][key]], given the property name
    [k] the key converts to. *)
Definition t_current (currentLang k : string) : result value :=
  match I18N !! currentLang with
  | Some table => Ok (table_get table k)
  | None =>
      match inherited currentLang with
      | VBuiltin b => builtin_get b k
      | other => Ok other
      end
  end.

(** [I18N.en[key]] *)
Definition t_english (k : string) : value :=
  table_get (list_to_map I18N_en) k.

(** [t] as the script defines it, for any argument and any value of
    [currentLang]:
    [(I18N[currentLang] && I18N[currentLang][key]) || I18N.en[key] || key].
    The lookups go by the own properties of the literals and then by what
    the literals inherit; the key is converted to a property name. *)
Definition t_of (currentLang : string) (key : value) : result value :=
  k ← ToString key;
  current ← t_current currentLang k;
  mret (or current (or (t_english k) key)).

Definition status_keys : list (string * string) :=
  [ ("running", "status_running");
    ("waiting_confirm", "status_waiting_confirm");
    ("waiting_user", "status_waiting_user");
    ("done", "status_done");
    ("stopped", "status_stopped");
    ("error", "status_error");
    ("queued", "status_queued") ].

(** The [map] literal of [statusLabel], built afresh in the current language. *)
Definition status_map (currentLang : string) : gmap string string :=
  list_to_map (List.map (fun '(k, key) => (k, t currentLang key)) status_keys).

(** [map[value] || value] *)
Definition statusLabel (currentLang : string) (v : value) : result value :=
  k ← ToString v;
  mret (or (lookup (VStr <$> status_map currentLang !! k) k) v).

Definition action_keys : list (string * string) :=
  [ ("navigate", "action_navigate");
    ("click", "action_click");
    ("type", "action_type");
    ("extract", "action_extract");
    ("snapshot", "action_snapshot");
    ("scroll", "action_scroll");
    ("wait", "action_wait");
    ("wait_for_network_idle", "action_wait");
    ("back", "action_back");
    ("forward", "action_forward");
    ("ask_user", "action_ask_user");
    ("finish", "action_finish");
    ("stop_task", "action_stop_task");
    ("take_screenshot", "action_take_screenshot");
    ("save_trace", "action_save_trace");
    ("none", "action_think");
    ("access", "action_access");
    ("loop_guard", "action_loop_guard");
    ("user_input", "action_user_input");
    ("tokens", "action_tokens");
    ("guard", "action_guard") ].

Definition action_map : gmap string string := list_to_map action_keys.

(** [const key = map[tool] || ''; return key ? t(key) : '';] *)
Definition actionLabel (currentLang : string) (tool : value) : result value :=
  k ← ToString tool;
  let key := or (lookup (VStr <$> action_map !! k) k) (VStr "") in
  if truthy key then t_of currentLang key else mret (VStr "").

(** ** Log line derivation *)

(** [typeof ms !== 'number' || Number.isNaN(ms)] gives the empty fragment. *)
Definition formatDuration (ms : value) : string :=
  match ms with
  | VNum S754_nan => ""
  | VNum x =>
      if geb x (integer 1000)
      then toFixed1 (div x (integer 1000)) +:+ "s"
      else Number_toString x +:+ "ms"
  | _ => ""
  end.

Definition push_if (c : bool) (v : value) (parts : list value) : list value :=
  if c then parts ++ [v] else parts.

(** The [parts] array of the log listener. *)
Definition log_parts (currentLang : string) (data : value) : result (list value) :=
  action ← actionLabel currentLang (or (field data "tool") (VStr ""));
  let duration := formatDuration (field data "duration_ms") in
  let parts := push_if (truthy action) action [] in
  let parts := push_if (truthy (field data "tool")) (field data "tool") parts in
  let parts := push_if (truthy (field data "status")) (field data "status") parts in
  let parts := push_if (truthy (field data "reason")) (field data "reason") parts in
  mret (push_if (nonempty duration) (VStr ("(" +:+ duration +:+ ")")) parts).

Definition log_message (currentLang : string) (data : value) : result string :=
  parts ← log_parts currentLang data;
  step ← ToString (or (field data "step") (VStr ""));
  fragments ← join " " parts;
  mret ("[" +:+ step +:+ "] " +:+ fragments).

Definition log_errorText (data : value) : result string :=
  if truthy (field data "error")
  then error ← ToString (field data "error"); mret (" | error: " +:+ error)
  else mret "".

(** The line the log listener hands to [appendLog]. *)
Definition log_line (currentLang : string) (data : value) : result string :=
  message ← log_message currentLang data;
  errorText ← log_errorText data;
  mret (trim (message +:+ errorText)).

(** ** The page and the controller state *)

Definition API_BASE : string := "http://localhost:8080".

(** An [EventSource] object: the address it subscribes to and whether its
    [readyState] is [CLOSED]. *)
Record EventSourceObj : Type := {
  es_url : string;
  es_closed : bool;
}.

(** A [fetch] call; every one in this file is a POST. [req_body] is the
    object handed to [JSON.stringify], [None] for a request without body;
    [req_json] tells whether the JSON content type header is sent. *)
Record request : Type := {
  req_url : string;
  req_json : bool;
  req_body : option value;
}.

(** What the handlers read of a [fetch] response. *)
Record response : Type := {
  resp_ok : bool;
  resp_statusText : string;
  resp_body : text;
}.

Record State : Type := {
  promptValue : string;  (* [promptEl.value] *)
  logText : string;  (* [logEl.textContent] *)
  statusText : string;  (* [statusEl.textContent] *)
  runDisabled : bool;  (* [runBtn.disabled] *)
  confirmDisabled : bool;  (* [confirmBtn.disabled] *)
  stopDisabled : bool;  (* [stopBtn.disabled] *)
  replyHidden : bool;  (* [userReplyWrap] carries the class [hidden] *)
  replyValue : string;  (* [userReplyInput.value] *)
  searchValue : string;  (* [searchEngineEl.value] *)
  providerValue : string;  (* [providerEl.value] *)
  modelChoices : list string;  (* the option values of [modelEl] *)
  modelValue : string;  (* [modelEl.value] *)
  safeChecked : bool;  (* [safeModeEl.checked] *)
  browserOnlyChecked : bool;  (* [browserOnlyEl.checked] *)
  theme : string;  (* [document.body.dataset.theme] *)
  eventSource : option nat;  (* the global [eventSource]: [null] or a reference into [sources] *)
  taskId : value;  (* the global [taskId] *)
  currentLang : string;  (* the global [currentLang] *)
  waitingForUserInput : bool;  (* the global [waitingForUserInput] *)
  sources : list EventSourceObj;  (* every [EventSource] constructed so far, oldest first *)
  requests : list request;  (* every [fetch] issued so far, oldest first *)
  alerts : list string;  (* every [alert] shown so far *)
  localStorage : gmap string string;  (* [window.localStorage] *)
}.

Definition with_promptValue (x : string) (s : State) : State :=
  {| promptValue := x; logText := logText s; statusText := statusText s;
     runDisabled := runDisabled s; confirmDisabled := confirmDisabled s;
     stopDisabled := stopDisabled s; replyHidden := replyHidden s;
     replyValue := replyValue s; searchValue := searchValue s; providerValue
     := providerValue s; modelChoices := modelChoices s; modelValue :=
     modelValue s; safeChecked := safeChecked s; browserOnlyChecked :=
     browserOnlyChecked s; theme := theme s; eventSource := eventSource s;
     taskId := taskId s; currentLang := currentLang s; waitingForUserInput
     := waitingForUserInput s; sources := sources s; requests := requests s;
     alerts := alerts s; localStorage := localStorage s |}.

Definition with_logText (x : string) (s : State) : State :=
  {| promptValue := promptValue s; logText := x; statusText := statusText s;
     runDisabled := runDisabled s; confirmDisabled := confirmDisabled s;
     stopDisabled := stopDisabled s; replyHidden := replyHidden s;
     replyValue := replyValue s; searchValue := searchValue s; providerValue
     := providerValue s; modelChoices := modelChoices s; modelValue :=
     modelValue s; safeChecked := safeChecked s; browserOnlyChecked :=
     browserOnlyChecked s; theme := theme s; eventSource := eventSource s;
     taskId := taskId s; currentLang := currentLang s; waitingForUserInput
     := waitingForUserInput s; sources := sources s; requests := requests s;
     alerts := alerts s; localStorage := localStorage s |}.

Definition with_statusText (x : string) (s : State) : State :=
  {| promptValue := promptValue s; logText := logText s; statusText := x;
     runDisabled := runDisabled s; confirmDisabled := confirmDisabled s;
     stopDisabled := stopDisabled s; replyHidden := replyHidden s;
     replyValue := replyValue s; searchValue := searchValue s; providerValue
     := providerValue s; modelChoices := modelChoices s; modelValue :=
     modelValue s; safeChecked := safeChecked s; browserOnlyChecked :=
     browserOnlyChecked s; theme := theme s; eventSource := eventSource s;
     taskId := taskId s; currentLang := currentLang s; waitingForUserInput
     := waitingForUserInput s; sources := sources s; requests := requests s;
     alerts := alerts s; localStorage := localStorage s |}.

Definition with_runDisabled (x : bool) (s : State) : State :=
  {| promptValue := promptValue s; logText := logText s; statusText :=
     statusText s; runDisabled := x; confirmDisabled := confirmDisabled s;
     stopDisabled := stopDisabled s; replyHidden := replyHidden s;
     replyValue := replyValue s; searchValue := searchValue s; providerValue
     := providerValue s; modelChoices := modelChoices s; modelValue :=
     modelValue s; safeChecked := safeChecked s; browserOnlyChecked :=
     browserOnlyChecked s; theme := theme s; eventSource := eventSource s;
     taskId := taskId s; currentLang := currentLang s; waitingForUserInput
     := waitingForUserInput s; sources := sources s; requests := requests s;
     alerts := alerts s; localStorage := localStorage s |}.

Definition with_confirmDisabled (x : bool) (s : State) : State :=
  {| promptValue := promptValue s; logText := logText s; statusText :=
     statusText s; runDisabled := runDisabled s; confirmDisabled := x;
     stopDisabled := stopDisabled s; replyHidden := replyHidden s;
     replyValue := replyValue s; searchValue := searchValue s; providerValue
     := providerValue s; modelChoices := modelChoices s; modelValue :=
     modelValue s; safeChecked := safeChecked s; browserOnlyChecked :=
     browserOnlyChecked s; theme := theme s; eventSource := eventSource s;
     taskId := taskId s; currentLang := currentLang s; waitingForUserInput
     := waitingForUserInput s; sources := sources s; requests := requests s;
     alerts := alerts s; localStorage := localStorage s |}.

Definition with_stopDisabled (x : bool) (s : State) : State :=
  {| promptValue := promptValue s; logText := logText s; statusText :=
     statusText s; runDisabled := runDisabled s; confirmDisabled :=
     confirmDisabled s; stopDisabled := x; replyHidden := replyHidden s;
     replyValue := replyValue s; searchValue := searchValue s; providerValue
     := providerValue s; modelChoices := modelChoices s; modelValue :=
     modelValue s; safeChecked := safeChecked s; browserOnlyChecked :=
     browserOnlyChecked s; theme := theme s; eventSource := eventSource s;
     taskId := taskId s; currentLang := currentLang s; waitingForUserInput
     := waitingForUserInput s; sources := sources s; requests := requests s;
     alerts := alerts s; localStorage := localStorage s |}.

Definition with_replyHidden (x : bool) (s : State) : State :=
  {| promptValue := promptValue s; logText := logText s; statusText :=
     statusText s; runDisabled := runDisabled s; confirmDisabled :=
     confirmDisabled s; stopDisabled := stopDisabled s; replyHidden := x;
     replyValue := replyValue s; searchValue := searchValue s; providerValue
     := providerValue s; modelChoices := modelChoices s; modelValue :=
     modelValue s; safeChecked := safeChecked s; browserOnlyChecked :=
     browserOnlyChecked s; theme := theme s; eventSource := eventSource s;
     taskId := taskId s; currentLang := currentLang s; waitingForUserInput
     := waitingForUserInput s; sources := sources s; requests := requests s;
     alerts := alerts s; localStorage := localStorage s |}.

Definition with_replyValue (x : string) (s : State) : State :=
  {| promptValue := promptValue s; logText := logText s; statusText :=
     statusText s; runDisabled := runDisabled s; confirmDisabled :=
     confirmDisabled s; stopDisabled := stopDisabled s; replyHidden :=
     replyHidden s; replyValue := x; searchValue := searchValue s;
     providerValue := providerValue s; modelChoices := modelChoices s;
     modelValue := modelValue s; safeChecked := safeChecked s;
     browserOnlyChecked := browserOnlyChecked s; theme := theme s;
     eventSource := eventSource s; taskId := taskId s; currentLang :=
     currentLang s; waitingForUserInput := waitingForUserInput s; sources :=
     sources s; requests := requests s; alerts := alerts s; localStorage :=
     localStorage s |}.

Definition with_searchValue (x : string) (s : State) : State :=
  {| promptValue := promptValue s; logText := logText s; statusText :=
     statusText s; runDisabled := runDisabled s; confirmDisabled :=
     confirmDisabled s; stopDisabled := stopDisabled s; replyHidden :=
     replyHidden s; replyValue := replyValue s; searchValue := x;
     providerValue := providerValue s; modelChoices := modelChoices s;
     modelValue := modelValue s; safeChecked := safeChecked s;
     browserOnlyChecked := browserOnlyChecked s; theme := theme s;
     eventSource := eventSource s; taskId := taskId s; currentLang :=
     currentLang s; waitingForUserInput := waitingForUserInput s; sources :=
     sources s; requests := requests s; alerts := alerts s; localStorage :=
     localStorage s |}.

Definition with_providerValue (x : string) (s : State) : State :=
  {| promptValue := promptValue s; logText := logText s; statusText :=
     statusText s; runDisabled := runDisabled s; confirmDisabled :=
     confirmDisabled s; stopDisabled := stopDisabled s; replyHidden :=
     replyHidden s; replyValue := replyValue s; searchValue := searchValue
     s; providerValue := x; modelChoices := modelChoices s; modelValue :=
     modelValue s; safeChecked := safeChecked s; browserOnlyChecked :=
     browserOnlyChecked s; theme := theme s; eventSource := eventSource s;
     taskId := taskId s; currentLang := currentLang s; waitingForUserInput
     := waitingForUserInput s; sources := sources s; requests := requests s;
     alerts := alerts s; localStorage := localStorage s |}.

Definition with_modelChoices (x : list string) (s : State) : State :=
  {| promptValue := promptValue s; logText := logText s; statusText :=
     statusText s; runDisabled := runDisabled s; confirmDisabled :=
     confirmDisabled s; stopDisabled := stopDisabled s; replyHidden :=
     replyHidden s; replyValue := replyValue s; searchValue := searchValue
     s; providerValue := providerValue s; modelChoices := x; modelValue :=
     modelValue s; safeChecked := safeChecked s; browserOnlyChecked :=
     browserOnlyChecked s; theme := theme s; eventSource := eventSource s;
     taskId := taskId s; currentLang := currentLang s; waitingForUserInput
     := waitingForUserInput s; sources := sources s; requests := requests s;
     alerts := alerts s; localStorage := localStorage s |}.

Definition with_modelValue (x : string) (s : State) : State :=
  {| promptValue := promptValue s; logText := logText s; statusText :=
     statusText s; runDisabled := runDisabled s; confirmDisabled :=
     confirmDisabled s; stopDisabled := stopDisabled s; replyHidden :=
     replyHidden s; replyValue := replyValue s; searchValue := searchValue
     s; providerValue := providerValue s; modelChoices := modelChoices s;
     modelValue := x; safeChecked := safeChecked s; browserOnlyChecked :=
     browserOnlyChecked s; theme := theme s; eventSource := eventSource s;
     taskId := taskId s; currentLang := currentLang s; waitingForUserInput
     := waitingForUserInput s; sources := sources s; requests := requests s;
     alerts := alerts s; localStorage := localStorage s |}.

Definition with_safeChecked (x : bool) (s : State) : State :=
  {| promptValue := promptValue s; logText := logText s; statusText :=
     statusText s; runDisabled := runDisabled s; confirmDisabled :=
     confirmDisabled s; stopDisabled := stopDisabled s; replyHidden :=
     replyHidden s; replyValue := replyValue s; searchValue := searchValue
     s; providerValue := providerValue s; modelChoices := modelChoices s;
     modelValue := modelValue s; safeChecked := x; browserOnlyChecked :=
     browserOnlyChecked s; theme := theme s; eventSource := eventSource s;
     taskId := taskId s; currentLang := currentLang s; waitingForUserInput
     := waitingForUserInput s; sources := sources s; requests := requests s;
     alerts := alerts s; localStorage := localStorage s |}.

Definition with_browserOnlyChecked (x : bool) (s : State) : State :=
  {| promptValue := promptValue s; logText := logText s; statusText :=
     statusText s; runDisabled := runDisabled s; confirmDisabled :=
     confirmDisabled s; stopDisabled := stopDisabled s; replyHidden :=
     replyHidden s; replyValue := replyValue s; searchValue := searchValue
     s; providerValue := providerValue s; modelChoices := modelChoices s;
     modelValue := modelValue s; safeChecked := safeChecked s;
     browserOnlyChecked := x; theme := theme s; eventSource := eventSource
     s; taskId := taskId s; currentLang := currentLang s;
     waitingForUserInput := waitingForUserInput s; sources := sources s;
     requests := requests s; alerts := alerts s; localStorage :=
     localStorage s |}.

Definition with_theme (x : string) (s : State) : State :=
  {| promptValue := promptValue s; logText := logText s; statusText :=
     statusText s; runDisabled := runDisabled s; confirmDisabled :=
     confirmDisabled s; stopDisabled := stopDisabled s; replyHidden :=
     replyHidden s; replyValue := replyValue s; searchValue := searchValue
     s; providerValue := providerValue s; modelChoices := modelChoices s;
     modelValue := modelValue s; safeChecked := safeChecked s;
     browserOnlyChecked := browserOnlyChecked s; theme := x; eventSource :=
     eventSource s; taskId := taskId s; currentLang := currentLang s;
     waitingForUserInput := waitingForUserInput s; sources := sources s;
     requests := requests s; alerts := alerts s; localStorage :=
     localStorage s |}.

Definition with_eventSource (x : option nat) (s : State) : State :=
  {| promptValue := promptValue s; logText := logText s; statusText :=
     statusText s; runDisabled := runDisabled s; confirmDisabled :=
     confirmDisabled s; stopDisabled := stopDisabled s; replyHidden :=
     replyHidden s; replyValue := replyValue s; searchValue := searchValue
     s; providerValue := providerValue s; modelChoices := modelChoices s;
     modelValue := modelValue s; safeChecked := safeChecked s;
     browserOnlyChecked := browserOnlyChecked s; theme := theme s;
     eventSource := x; taskId := taskId s; currentLang := currentLang s;
     waitingForUserInput := waitingForUserInput s; sources := sources s;
     requests := requests s; alerts := alerts s; localStorage :=
     localStorage s |}.

Definition with_taskId (x : value) (s : State) : State :=
  {| promptValue := promptValue s; logText := logText s; statusText :=
     statusText s; runDisabled := runDisabled s; confirmDisabled :=
     confirmDisabled s; stopDisabled := stopDisabled s; replyHidden :=
     replyHidden s; replyValue := replyValue s; searchValue := searchValue
     s; providerValue := providerValue s; modelChoices := modelChoices s;
     modelValue := modelValue s; safeChecked := safeChecked s;
     browserOnlyChecked := browserOnlyChecked s; theme := theme s;
     eventSource := eventSource s; taskId := x; currentLang := currentLang
     s; waitingForUserInput := waitingForUserInput s; sources := sources s;
     requests := requests s; alerts := alerts s; localStorage :=
     localStorage s |}.

Definition with_currentLang (x : string) (s : State) : State :=
  {| promptValue := promptValue s; logText := logText s; statusText :=
     statusText s; runDisabled := runDisabled s; confirmDisabled :=
     confirmDisabled s; stopDisabled := stopDisabled s; replyHidden :=
     replyHidden s; replyValue := replyValue s; searchValue := searchValue
     s; providerValue := providerValue s; modelChoices := modelChoices s;
     modelValue := modelValue s; safeChecked := safeChecked s;
     browserOnlyChecked := browserOnlyChecked s; theme := theme s;
     eventSource := eventSource s; taskId := taskId s; currentLang := x;
     waitingForUserInput := waitingForUserInput s; sources := sources s;
     requests := requests s; alerts := alerts s; localStorage :=
     localStorage s |}.

Definition with_waitingForUserInput (x : bool) (s : State) : State :=
  {| promptValue := promptValue s; logText := logText s; statusText :=
     statusText s; runDisabled := runDisabled s; confirmDisabled :=
     confirmDisabled s; stopDisabled := stopDisabled s; replyHidden :=
     replyHidden s; replyValue := replyValue s; searchValue := searchValue
     s; providerValue := providerValue s; modelChoices := modelChoices s;
     modelValue := modelValue s; safeChecked := safeChecked s;
     browserOnlyChecked := browserOnlyChecked s; theme := theme s;
     eventSource := eventSource s; taskId := taskId s; currentLang :=
     currentLang s; waitingForUserInput := x; sources := sources s; requests
     := requests s; alerts := alerts s; localStorage := localStorage s |}.

Definition with_sources (x : list EventSourceObj) (s : State) : State :=
  {| promptValue := promptValue s; logText := logText s; statusText :=
     statusText s; runDisabled := runDisabled s; confirmDisabled :=
     confirmDisabled s; stopDisabled := stopDisabled s; replyHidden :=
     replyHidden s; replyValue := replyValue s; searchValue := searchValue
     s; providerValue := providerValue s; modelChoices := modelChoices s;
     modelValue := modelValue s; safeChecked := safeChecked s;
     browserOnlyChecked := browserOnlyChecked s; theme := theme s;
     eventSource := eventSource s; taskId := taskId s; currentLang :=
     currentLang s; waitingForUserInput := waitingForUserInput s; sources :=
     x; requests := requests s; alerts := alerts s; localStorage :=
     localStorage s |}.

Definition with_requests (x : list request) (s : State) : State :=
  {| promptValue := promptValue s; logText := logText s; statusText :=
     statusText s; runDisabled := runDisabled s; confirmDisabled :=
     confirmDisabled s; stopDisabled := stopDisabled s; replyHidden :=
     replyHidden s; replyValue := replyValue s; searchValue := searchValue
     s; providerValue := providerValue s; modelChoices := modelChoices s;
     modelValue := modelValue s; safeChecked := safeChecked s;
     browserOnlyChecked := browserOnlyChecked s; theme := theme s;
     eventSource := eventSource s; taskId := taskId s; currentLang :=
     currentLang s; waitingForUserInput := waitingForUserInput s; sources :=
     sources s; requests := x; alerts := alerts s; localStorage :=
     localStorage s |}.

Definition with_alerts (x : list string) (s : State) : State :=
  {| promptValue := promptValue s; logText := logText s; statusText :=
     statusText s; runDisabled := runDisabled s; confirmDisabled :=
     confirmDisabled s; stopDisabled := stopDisabled s; replyHidden :=
     replyHidden s; replyValue := replyValue s; searchValue := searchValue
     s; providerValue := providerValue s; modelChoices := modelChoices s;
     modelValue := modelValue s; safeChecked := safeChecked s;
     browserOnlyChecked := browserOnlyChecked s; theme := theme s;
     eventSource := eventSource s; taskId := taskId s; currentLang :=
     currentLang s; waitingForUserInput := waitingForUserInput s; sources :=
     sources s; requests := requests s; alerts := x; localStorage :=
     localStorage s |}.

Definition with_localStorage (x : gmap string string) (s : State) : State :=
  {| promptValue := promptValue s; logText := logText s; statusText :=
     statusText s; runDisabled := runDisabled s; confirmDisabled :=
     confirmDisabled s; stopDisabled := stopDisabled s; replyHidden :=
     replyHidden s; replyValue := replyValue s; searchValue := searchValue
     s; providerValue := providerValue s; modelChoices := modelChoices s;
     modelValue := modelValue s; safeChecked := safeChecked s;
     browserOnlyChecked := browserOnlyChecked s; theme := theme s;
     eventSource := eventSource s; taskId := taskId s; currentLang :=
     currentLang s; waitingForUserInput := waitingForUserInput s; sources :=
     sources s; requests := requests s; alerts := alerts s; localStorage :=
     x |}.

(** ** DOM and storage helpers *)

Definition nl : string := byte 10.

Definition setStatus (text : string) (s : State) : State :=
  with_statusText text s.

(** [logEl.textContent += `${line}\n`] *)
Definition appendLog (line : string) (s : State) : State :=
  with_logText (logText s +:+ line +:+ nl) s.

Definition alert (message : string) (s : State) : State :=
  with_alerts (alerts s ++ [message]) s.

Definition fetch (r : request) (s : State) : State :=
  with_requests (requests s ++ [r]) s.

Definition getItem (k : string) (s : State) : option string :=
  localStorage s !! k.

Definition setItem (k v : string) (s : State) : State :=
  with_localStorage (<[k := v]> (localStorage s)) s.

(** [localStorage.getItem(k) || d] *)
Definition getItem_or (k d : string) (s : State) : string :=
  if present (getItem k s) then default d (getItem k s) else d.

Definition resetUI (s : State) : State :=
  let s := with_logText "" s in
  let s := with_confirmDisabled true s in
  let s := with_stopDisabled true s in
  let s := with_runDisabled false s in
  let s := with_waitingForUserInput false s in
  let s := with_replyHidden true s in
  let s := with_replyValue "" s in
  setStatus (t (currentLang s) "status_idle") s.

(** ** Settings *)

Definition MODEL_OPTIONS : gmap string (list string) :=
  list_to_map
    [ ("gemini", ["gemini-2.0-flash-lite"; "gemini-2.5-flash-lite"]);
      ("openai", ["gpt-4.1-nano"; "gpt-4.1-mini"; "gpt-4.1"]);
      ("ollama", ["qwen3:1.7b"; "functiongemma:latest"]);
      ("anthropic", ["claude-3-5-sonnet-latest"; "claude-3-5-haiku-latest"]) ].

(** `llm_model_${provider}` *)
Definition model_key (provider : string) : string := "llm_model_" +:+ provider.

(** Assigning [select.value]: the option with that value becomes the
    selected one; with no such option nothing is selected and the value
    reads as the empty string. *)
Definition select_value (choices : list string) (v : string) : string :=
  if bool_decide (v ∈ choices) then v else "".

(** The options of the two fixed selects of the page. *)
Definition search_choices : list string := ["google"; "duckduckgo"; "bing"; "yandex"].
Definition provider_choices : list string := ["gemini"; "openai"; "ollama"; "anthropic"].

(** The element is emptied and refilled; the first option of the new list is
    the selected one. The provider is one of the provider select, or what the
    page stored from it; [MODEL_OPTIONS] is read by its own entries. *)
Definition setModelOptions (provider : string) (s : State) : State :=
  let options := default [] (MODEL_OPTIONS !! provider) in
  let choices := match options with [] => [""] | _ => options end in
  with_modelValue (List.hd "" choices) (with_modelChoices choices s).

(** The text of the elements tagged for translation is not part of the state;
    what remains of [applyLanguage] is the language, its storage key and the
    status line. *)
Definition applyLanguage (lang : string) (s : State) : State :=
  let s := with_currentLang lang s in
  let s := setItem "ui_lang" lang s in
  setStatus (t (currentLang s) "status_idle") s.

Definition applyTheme (th : string) (s : State) : State :=
  let s := with_theme (if String.eqb th "dark" then "dark" else "light") s in
  setItem "ui_theme" th s.

Definition loadSettings (s : State) : State :=
  let s := applyLanguage (getItem_or "ui_lang" "ru" s) s in
  let s := applyTheme (getItem_or "ui_theme" "light" s) s in
  let storedSearch := getItem_or "search_engine" "google" s in
  let s := with_searchValue (select_value search_choices storedSearch) s in
  let storedProvider := getItem_or "llm_provider" "openai" s in
  let s := with_providerValue (select_value provider_choices storedProvider) s in
  let s := setModelOptions storedProvider s in
  let storedModel := getItem_or (model_key storedProvider) "" s in
  let legacyModel := getItem_or "llm_model" "" s in
  let s :=
    if nonempty storedModel || nonempty legacyModel
    then with_modelValue
           (select_value (modelChoices s)
              (if nonempty storedModel then storedModel else legacyModel)) s
    else s in
  let s :=
    match getItem "safe_mode" s with
    | Some v => with_safeChecked (String.eqb v "true") s
    | None => s
    end in
  match getItem "browser_only" s with
  | Some v => with_browserOnlyChecked (String.eqb v "true") s
  | None => s
  end.

(** The listeners installed by [bindSettings]; each runs after the browser
    has stored the user's choice in the element. *)
Definition on_theme_click (th : string) (s : State) : State := applyTheme th s.

Definition on_search_change (s : State) : State :=
  setItem "search_engine" (searchValue s) s.

Definition on_provider_change (s : State) : State :=
  let provider := providerValue s in
  let s := setItem "llm_provider" provider s in
  let s := setModelOptions provider s in
  match getItem (model_key provider) s with
  | Some storedModel =>
      if nonempty storedModel
      then with_modelValue (select_value (modelChoices s) storedModel) s
      else s
  | None => s
  end.

Definition on_model_change (s : State) : State :=
  let provider := providerValue s in
  setItem (model_key provider) (modelValue s) s.

Definition bool_text (b : bool) : string := if b then "true" else "false".

Definition on_safe_change (s : State) : State :=
  setItem "safe_mode" (bool_text (safeChecked s)) s.

Definition on_browser_only_change (s : State) : State :=
  setItem "browser_only" (bool_text (browserOnlyChecked s)) s.

Definition on_lang_toggle (s : State) : State :=
  let next := if String.eqb (currentLang s) "ru" then "en" else "ru" in
  applyLanguage next s.

(** ** Stream subscription *)

(** How a handler that can throw after it has assigned ends: by returning,
    or by throwing, with the state it leaves in either case. *)
Inductive completion : Type :=
| Returned (s : State)
| Thrown (e : exn) (s : State).

Definition state_after (c : completion) : State :=
  match c with
  | Returned s => s
  | Thrown _ s => s
  end.

Definition close_source (i : nat) (s : State) : State :=
  with_sources
    (alter (fun es => {| es_url := es_url es; es_closed := true |}) i (sources s)) s.

(** [if (eventSource) { eventSource.close(); }] *)
Definition close_current (s : State) : State :=
  match eventSource s with
  | Some i => close_source i s
  | None => s
  end.

(** [`${API_BASE}/tasks/${id}/events`], given the text of the identifier. *)
Definition events_url (id : string) : string :=
  API_BASE +:+ "/tasks/" +:+ id +:+ "/events".

(** The current source is closed first; the address is built next, and an
    identifier that cannot be converted to text makes the function throw
    there, with nothing constructed and [eventSource] still the closed
    source. *)
Definition connectEvents (id : value) (s : State) : completion :=
  let s := close_current s in
  match ToString id with
  | Throw e => Thrown e s
  | Ok u =>
      let fresh := length (sources s) in
      let s := with_sources
                 (sources s ++ [{| es_url := events_url u; es_closed := false |}]) s in
      Returned (with_eventSource (Some fresh) s)
  end.

(** [const payload = JSON.parse(event.data); const data = payload.data || {};] *)
Definition event_data (d : text) : result value :=
  payload ← JSON_parse d;
  data ← get payload "data";
  mret (or data (VObj [])).

(** The five listeners. Each builds the text it shows before its first
    assignment, so the one that throws has changed nothing. *)
Definition on_log (d : text) (s : State) : result State :=
  data ← event_data d;
  line ← log_line (currentLang s) data;
  mret (appendLog line s).

Definition on_needs_confirmation (d : text) (s : State) : result State :=
  data ← event_data d;
  summary ← ToString (or (field data "summary") (VStr ""));
  let s := appendLog (t (currentLang s) "log_confirm" +:+ ": " +:+ summary) s in
  let s := with_confirmDisabled false s in
  let s := with_stopDisabled false s in
  let s := with_waitingForUserInput false s in
  let s := with_replyHidden true s in
  mret (setStatus (t (currentLang s) "status_wait_confirm") s).

Definition on_needs_user_input (d : text) (s : State) : result State :=
  data ← event_data d;
  question ← ToString (or (field data "question") (VStr ""));
  let s := appendLog (t (currentLang s) "log_user_input" +:+ ": " +:+ question) s in
  let s := with_confirmDisabled false s in
  let s := with_stopDisabled false s in
  let s := with_waitingForUserInput true s in
  let s := with_replyHidden false s in
  mret (setStatus (t (currentLang s) "status_wait_user") s).

Definition on_result (d : text) (s : State) : result State :=
  data ← event_data d;
  shown ← ToString (or (field data "result") (VStr ""));
  mret (appendLog (t (currentLang s) "log_result" +:+ ": " +:+ shown) s).

(** [['done', 'stopped', 'error'].includes(v)] *)
Definition is_terminal (v : value) : bool :=
  match v with
  | VStr x => bool_decide (x ∈ ["done"; "stopped"; "error"])
  | _ => false
  end.

Definition on_status (d : text) (s : State) : result State :=
  data ← event_data d;
  label ← statusLabel (currentLang s) (or (field data "status") (VStr ""));
  shown ← ToString label;
  let s := setStatus (t (currentLang s) "status_prefix" +:+ " " +:+ shown) s in
  if is_terminal (field data "status") then
    let s := with_confirmDisabled true s in
    let s := with_stopDisabled true s in
    let s := with_runDisabled false s in
    let s := with_waitingForUserInput false s in
    let s := with_replyHidden true s in
    mret (close_current s)
  else mret s.

(** [eventSource.onerror] *)
Definition on_stream_error (s : State) : State :=
  appendLog (t (currentLang s) "log_event_error") s.

(** ** The click handlers *)

(** The run handler up to its first [await]. *)
Definition run_click (s : State) : State :=
  let prompt := trim (promptValue s) in
  if negb (nonempty prompt) then alert (t (currentLang s) "alert_enter_task") s
  else
    let s := resetUI s in
    let s := setStatus (t (currentLang s) "status_starting") s in
    let s := with_runDisabled true s in
    fetch {| req_url := API_BASE +:+ "/tasks";
             req_json := true;
             req_body := Some (VObj
               [ ("prompt", VStr prompt);
                 ("browser_only", VBool (browserOnlyChecked s));
                 ("search_engine", VStr (searchValue s));
                 ("model", VStr (modelValue s));
                 ("provider", VStr (providerValue s));
                 ("safe_mode", VBool (safeChecked s)) ]) |} s.

(** What the error branch of the run handler prints after the label:
    [err.detail || response.statusText], read off the body and converted. *)
Definition rejection_text (r : response) : result string :=
  err ← JSON_parse (resp_body r);
  detail ← get err "detail";
  ToString (or detail (VStr (resp_statusText r))).

(** The identifier the success branch reads off the body: [data.task_id]. *)
Definition created_id (r : response) : result value :=
  data ← JSON_parse (resp_body r);
  get data "task_id".

(** The rest of the run handler, resumed with the response once its body has
    been read; nothing of the state is read or written between the two
    awaits. A body that cannot be read, or a text that cannot be built,
    makes the handler throw before it has assigned anything; past the
    assignment of [taskId] it can still throw inside [connectEvents]. *)
Definition run_response (r : response) (s : State) : completion :=
  if negb (resp_ok r) then
    match rejection_text r with
    | Throw e => Thrown e s
    | Ok detail =>
        let s := appendLog (t (currentLang s) "log_failed_start" +:+ ": " +:+ detail) s in
        let s := setStatus (t (currentLang s) "status_prefix" +:+ " "
                            +:+ t (currentLang s) "status_error") s in
        Returned (with_runDisabled false s)
    end
  else
    match created_id r with
    | Throw e => Thrown e s
    | Ok id =>
        let s := with_taskId id s in
        let s := with_stopDisabled false s in
        connectEvents (taskId s) s
    end.

(** The address of the confirm request for the stored identifier. The
    handler is reached from the confirm button, which only an event of the
    stream enables, and the stream was opened with the text of this
    identifier: its conversion is that text (see [open_stream_task_text]). *)
Definition confirm_url (id : value) : string :=
  API_BASE +:+ "/tasks/" +:+ to_string id +:+ "/confirm".

Definition confirm_click (s : State) : State :=
  if negb (truthy (taskId s)) then s
  else
    let s := with_confirmDisabled true s in
    let s := setStatus "Continuing..." s in
    if waitingForUserInput s then
      let reply := trim (replyValue s) in
      if negb (nonempty reply) then
        let s := appendLog (t (currentLang s) "alert_enter_reply") s in
        with_confirmDisabled false s
      else
        let s := with_replyValue "" s in
        fetch {| req_url := confirm_url (taskId s);
                 req_json := true;
                 req_body := Some (VObj [("response", VStr reply)]) |} s
    else
      fetch {| req_url := confirm_url (taskId s);
               req_json := false;
               req_body := None |} s.

(** [`${API_BASE}/tasks/${taskId}/stop`], given the text of the identifier. *)
Definition stop_url (id : string) : string :=
  API_BASE +:+ "/tasks/" +:+ id +:+ "/stop".

(** The stop button is enabled before [connectEvents] has built the address
    of the stream, so the handler can meet an identifier that has no text:
    it throws at the address of its own request, the button disabled and
    the status set. *)
Definition stop_click (s : State) : State :=
  if negb (truthy (taskId s)) then s
  else
    let s := with_stopDisabled true s in
    let s := setStatus "Stopping..." s in
    match ToString (taskId s) with
    | Ok id => fetch {| req_url := stop_url id; req_json := false; req_body := None |} s
    | Throw _ => s
    end.

(** ** The page as served, and what can happen to it *)

(** The elements as the markup declares them and the globals as the script
    declares them, over whatever the storage holds from earlier visits. *)
Definition page (store : gmap string string) : State :=
  {| promptValue := ""; logText := ""; statusText := "Idle";
     runDisabled := false; confirmDisabled := true; stopDisabled := true;
     replyHidden := true; replyValue := "";
     searchValue := "google"; providerValue := "gemini";
     modelChoices := ["gemini-2.0-flash-lite"; "gemini-2.5-flash-lite"];
     modelValue := "gemini-2.0-flash-lite";
     safeChecked := true; browserOnlyChecked := true; theme := "";
     eventSource := None; taskId := VNull; currentLang := "ru";
     waitingForUserInput := false;
     sources := []; requests := []; alerts := []; localStorage := store |}.

(** The tail of the script: [loadSettings(); bindSettings(); resetUI();]. *)
Definition init (store : gmap string string) : State :=
  resetUI (loadSettings (page store)).

Inductive event_kind : Type :=
| Log | NeedsConfirmation | NeedsUserInput | Result | Status.

Definition listener (k : event_kind) : text -> State -> result State :=
  match k with
  | Log => on_log
  | NeedsConfirmation => on_needs_confirmation
  | NeedsUserInput => on_needs_user_input
  | Result => on_result
  | Status => on_status
  end.

Inductive action : Type :=
| TypePrompt (x : string)
| TypeReply (x : string)
| RunClick
| RunResponse (r : response)
| ConfirmClick
| StopClick
| Message (i : nat) (k : event_kind) (d : text)
| StreamError (i : nat)
| PickSearch (x : string)
| PickProvider (p : string)
| PickModel (m : string)
| SetSafe (b : bool)
| SetBrowserOnly (b : bool)
| ThemeClick (th : string)
| LangToggle.

(** A listener that throws has changed nothing: the exception is reported
    and the page goes on. *)
Definition settle (s : State) (r : result State) : State :=
  match r with
  | Ok s' => s'
  | Throw _ => s
  end.

(** Only a source that is not closed dispatches. *)
Definition is_open (i : nat) (s : State) : bool :=
  match sources s !! i with
  | Some es => negb (es_closed es)
  | None => false
  end.

(** One turn of the event loop. Clicks are delivered whatever the [disabled]
    flag of the button says, as a caller of the handlers can do, so the runs
    below cover the runs of the page and more. *)
Definition step (a : action) (s : State) : State :=
  match a with
  | TypePrompt x => with_promptValue x s
  | TypeReply x => with_replyValue x s
  | RunClick => run_click s
  | RunResponse r => state_after (run_response r s)
  | ConfirmClick => confirm_click s
  | StopClick => stop_click s
  | Message i k d => if is_open i s then settle s (listener k d s) else s
  | StreamError i => if is_open i s then on_stream_error s else s
  | PickSearch x =>
      if bool_decide (x ∈ search_choices)
      then on_search_change (with_searchValue x s) else s
  | PickProvider p =>
      if bool_decide (p ∈ provider_choices)
      then on_provider_change (with_providerValue p s) else s
  | PickModel m =>
      if bool_decide (m ∈ modelChoices s)
      then on_model_change (with_modelValue m s) else s
  | SetSafe b => on_safe_change (with_safeChecked b s)
  | SetBrowserOnly b => on_browser_only_change (with_browserOnlyChecked b s)
  | ThemeClick th => on_theme_click th s
  | LangToggle => on_lang_toggle s
  end.

Definition run (acts : list action) (s : State) : State :=
  List.fold_left (fun s a => step a s) acts s.

Definition reachable (s : State) : Prop :=
  exists store acts, s = run acts (init store).

(** The subscriptions that are open. *)
Definition open_sources (s : State) : list EventSourceObj :=
  List.filter (fun es => negb (es_closed es)) (sources s).

(** ** The page under its own guards *)

(** A disabled button delivers no click. *)
Definition enabled (a : action) (s : State) : bool :=
  match a with
  | RunClick => negb (runDisabled s)
  | ConfirmClick => negb (confirmDisabled s)
  | StopClick => negb (stopDisabled s)
  | _ => true
  end.

(** The clicks that send a task-creation request. *)
Definition requests_task (a : action) (s : State) : bool :=
  match a with
  | RunClick => nonempty (trim (promptValue s))
  | _ => false
  end.

(** [on_page n s]: the page can get into [s], with [n] task-creation
    requests still waiting for their response, when clicks come from
    enabled buttons only and a response comes only for a request sent. *)
Inductive on_page : nat -> State -> Prop :=
| on_page_init store : on_page 0 (init store)
| on_page_response n s r :
    on_page (S n) s -> on_page n (step (RunResponse r) s)
| on_page_step n s a :
    on_page n s -> (forall r, a <> RunResponse r) -> enabled a s = true ->
    on_page (if requests_task a s then S n else n) (step a s).

(** ** Notions the properties are stated with *)

(** Every subscription that is open is the one [eventSource] refers to. *)
Definition single_active (s : State) : Prop :=
  forall i, is_open i s = true -> eventSource s = Some i.

(** The [status] field the status listener reads off an event. *)
Definition status_field (d : text) : result value :=
  data ← event_data d;
  mret (field data "status").

Definition terminal_values : list value :=
  [VStr "done"; VStr "stopped"; VStr "error"].

(** The status line as the page shows a running task. *)
Definition running_status (lang : string) : string :=
  t lang "status_prefix" +:+ " " +:+ t lang "status_running".

(** The request the confirm handler sends with a reply. *)
Definition confirm_request (id : value) (reply : string) : request :=
  {| req_url := confirm_url id;
     req_json := true;
     req_body := Some (VObj [("response", VStr reply)]) |}.

(** Whether a value has a text. *)
Definition convertible (v : value) : bool :=
  match ToString v with
  | Ok _ => true
  | Throw _ => false
  end.

(** The fields of the payload a listener prints. *)
Definition printed (k : event_kind) : list string :=
  match k with
  | Log => ["tool"; "step"; "status"; "reason"; "error"]
  | NeedsConfirmation => ["summary"]
  | NeedsUserInput => ["question"]
  | Result => ["result"]
  | Status => ["status"]
  end.

(** The keys [t] is called with: those written out in the handlers, and
    those the two label maps hold. *)
Definition literal_keys : list string :=
  [ "status_idle"; "status_starting"; "status_prefix"; "status_error";
    "status_wait_confirm"; "status_wait_user"; "log_confirm"; "log_user_input";
    "log_result"; "log_event_error"; "log_failed_start"; "alert_enter_task";
    "alert_enter_reply" ]
  ++ List.map snd status_keys ++ List.map snd action_keys.


(** ** Scenarios *)

(** A success response of the task-creation request, and an event envelope
    [{data: {...}}]. *)
Definition created (id : string) : response :=
  {| resp_ok := true; resp_statusText := "OK";
     resp_body := Json (VObj [("task_id", VStr id)]) |}.

Definition envelope (fields : list (string * value)) : text :=
  Json (VObj [("data", VObj fields)]).



(** The JSON value [{"toString": 1}], which has no text. *)
Definition untexted : value := VObj [("toString", VNum (integer 1))].

(** A success response whose identifier is that value. *)
Definition created_untexted : response :=
  {| resp_ok := true; resp_statusText := "OK";
     resp_body := Json (VObj [("task_id", untexted)]) |}.

(** A first visit; blanks typed into the prompt. *)
Definition blank_prompt : State := step (TypePrompt "   ") (init ∅).

(** A task has been started and its stream is open. *)
Definition started_script : list action :=
  [ TypePrompt "Open wikipedia.org"; RunClick; RunResponse (created "t1") ].

Definition started : State := run started_script (init ∅).

(** The task has asked the user a question. *)
Definition awaiting_reply_script : list action :=
  [ TypePrompt "Open wikipedia.org"; RunClick; RunResponse (created "t1");
    Message 0 NeedsUserInput (envelope [("question", VStr "Which language?")]) ].

Definition awaiting_reply : State := run awaiting_reply_script (init ∅).

(** The task has reported that it is done. *)
Definition ended : State :=
  step (Message 0 Status (envelope [("status", VStr "done")])) awaiting_reply.



(** A model is picked under one provider; the user goes to another provider
    and comes back. *)
Definition picked : State :=
  run [PickProvider "openai"; PickModel "gpt-4.1-mini"] (init ∅).

Definition away_and_back : State :=
  run [PickProvider "anthropic"; PickProvider "openai"] picked.

(** ** Proof steps used throughout *)

Ltac unfold_listeners :=
  unfold on_log, on_needs_confirmation, on_needs_user_input, on_result, on_status.

(** Case analysis on every [match] and [if] of the goal. *)
Ltac split_cases :=
  repeat match goal with
         | |- context [match ?x with _ => _ end] => destruct x
         end.

(** One step of a handler written with [←]. *)
Ltac bind_step := unfold mbind, mret, result_bind, result_ret; cbv beta iota.

(** * Properties *)

(** ** Numbers *)

Section Arithmetic.

Local Open Scope Z_scope.
















End Arithmetic.









(** ** Facts about the tables *)

Lemma I18N_entries_nonempty :
  map_Forall (fun _ table => map_Forall (fun _ x : string => nonempty x = true) table) I18N.
Proof. apply (bool_decide_unpack _). vm_compute. exact I. Qed.

Lemma entry_present lang key x : entry lang key = Some x -> present (Some x) = true.
Proof.
  unfold entry. destruct (I18N !! lang) as [table|] eqn:Hl; [|discriminate].
  intros Hk. simpl.
  exact (map_Forall_lookup_1 _ _ _ _ (map_Forall_lookup_1 _ _ _ _ I18N_entries_nonempty Hl) Hk).
Qed.

Lemma t_entry lang key x : entry lang key = Some x -> t lang key = x.
Proof.
  intros H. unfold t. rewrite H, (entry_present _ _ _ H). reflexivity.
Qed.

Lemma t_fallback lang key :
  entry lang key = None -> t lang key = default key (entry "en" key).
Proof.
  intros H. unfold t. rewrite H. simpl.
  destruct (entry "en" key) as [x|] eqn:He; [|reflexivity].
  rewrite (entry_present _ _ _ He). reflexivity.
Qed.

Lemma MODEL_OPTIONS_nonempty :
  map_Forall (fun _ options => Forall (fun m : string => nonempty m = true) options)
    MODEL_OPTIONS.
Proof. apply (bool_decide_unpack _). vm_compute. exact I. Qed.

Lemma I18N_en_table : I18N !! "en" = Some (list_to_map I18N_en).
Proof.
  change I18N with (<["en" := list_to_map I18N_en]>
                      (<["ru" := list_to_map I18N_ru]> (∅ : gmap string (gmap string string)))).
  rewrite lookup_insert, decide_True by reflexivity. reflexivity.
Qed.

Lemma entry_en key : entry "en" key = (list_to_map I18N_en : gmap string string) !! key.
Proof. unfold entry. rewrite I18N_en_table. reflexivity. Qed.

(** ** What the literals inherit *)

Lemma inherited_cases k :
  inherited k = VUndefined
  \/ (exists b, inherited k = VBuiltin b)
     /\ k ∈ "__proto__" :: object_prototype_functions.
Proof.
  unfold inherited. destruct (String.eqb_spec k "__proto__") as [->|_].
  - right. split; [eauto | apply list_elem_of_here].
  - case_bool_decide as Hin; [right | left; reflexivity].
    split; [eauto | apply list_elem_of_further, Hin].
Qed.

Lemma inherited_convertible k : convertible (inherited k) = true.
Proof.
  destruct (inherited_cases k) as [->|[[b ->] _]]; reflexivity.
Qed.

Lemma inherited_truthy k b : inherited k = VBuiltin b -> truthy (inherited k) = true.
Proof. intros ->. reflexivity. Qed.

(** No key of the tables is the name of something the tables inherit. *)
Lemma table_keys_own :
  map_Forall
    (fun _ table =>
       map_Forall (fun k (_ : string) =>
                     negb (bool_decide (k ∈ "__proto__" :: object_prototype_functions)) = true)
         table) I18N.
Proof. apply (bool_decide_unpack _). vm_compute. exact I. Qed.

Lemma entry_own lang key x : entry lang key = Some x -> inherited key = VUndefined.
Proof.
  unfold entry. destruct (I18N !! lang) as [table|] eqn:Hl; [|discriminate].
  intros Hk.
  pose proof (map_Forall_lookup_1 _ _ _ _
                (map_Forall_lookup_1 _ _ _ _ table_keys_own Hl) Hk) as Hn.
  apply negb_true_iff, bool_decide_eq_false in Hn.
  destruct (inherited_cases key) as [H|[_ H]]; [exact H | contradiction].
Qed.

Lemma table_get_entry lang table key :
  I18N !! lang = Some table ->
  table_get table key
  = match table !! key with
    | Some x => VStr x
    | None => inherited key
    end.
Proof. intros _. unfold table_get, lookup. destruct (table !! key); reflexivity. Qed.

Lemma truthy_entry lang key x : entry lang key = Some x -> truthy (VStr x) = true.
Proof. intros H. exact (entry_present _ _ _ H). Qed.

Lemma t_english_entry key :
  t_english key
  = match entry "en" key with
    | Some x => VStr x
    | None => inherited key
    end.
Proof.
  unfold t_english. rewrite (table_get_entry "en" _ _ I18N_en_table), entry_en.
  reflexivity.
Qed.

Lemma or_english key :
  inherited key = VUndefined ->
  or (t_english key) (VStr key) = VStr (default key (entry "en" key)).
Proof.
  intros Hkey. rewrite t_english_entry. unfold or.
  destruct (entry "en" key) as [x|] eqn:He.
  - rewrite (truthy_entry _ _ _ He). reflexivity.
  - rewrite Hkey. reflexivity.
Qed.

(** Where neither the language nor the key is a name the tables inherit,
    the lookups go by the entries alone. *)
Lemma t_of_entries lang key :
  inherited lang = VUndefined -> inherited key = VUndefined ->
  t_of lang (VStr key) = Ok (VStr (t lang key)).
Proof.
  intros Hlang Hkey. unfold t_of. cbn [ToString]. bind_step.
  unfold t_current.
  destruct (I18N !! lang) as [table|] eqn:Hl.
  - rewrite (table_get_entry lang _ _ Hl).
    assert (He : entry lang key = table !! key) by (unfold entry; rewrite Hl; reflexivity).
    destruct (table !! key) as [x|] eqn:Hk.
    + bind_step. unfold or at 1. rewrite (truthy_entry lang key x He).
      rewrite (t_entry _ _ _ He). reflexivity.
    + rewrite Hkey. bind_step. unfold or at 1. cbn [truthy]. cbv iota.
      rewrite (or_english key Hkey), (t_fallback _ _ He). reflexivity.
  - rewrite Hlang. bind_step. unfold or at 1. cbn [truthy]. cbv iota.
    assert (He : entry lang key = None) by (unfold entry; rewrite Hl; reflexivity).
    rewrite (or_english key Hkey), (t_fallback _ _ He). reflexivity.
Qed.

(** The readings of every key of the tables under every language name the
    literal [I18N] inherits. *)
Lemma t_of_inherited_language :
  forallb
    (fun lang =>
       forallb
         (fun '(key, _) =>
            match t_of lang (VStr key) with
            | Ok (VStr x) => String.eqb x (t lang key)
            | _ => false
            end) I18N_en)
    ("__proto__" :: object_prototype_functions) = true.
Proof. vm_compute. reflexivity. Qed.

(** On a key of the English table, [t] is [t_of], whatever the language. *)
Lemma t_of_table_key lang key :
  is_Some (entry "en" key) -> t_of lang (VStr key) = Ok (VStr (t lang key)).
Proof.
  intros [x Hx].
  pose proof (entry_own _ _ _ Hx) as Hkey.
  destruct (inherited_cases lang) as [Hlang|[_ Hin]].
  - apply t_of_entries; assumption.
  - pose proof t_of_inherited_language as H.
    rewrite forallb_forall in H. specialize (H lang (proj1 (list_elem_of_In _ _) Hin)).
    rewrite forallb_forall in H.
    rewrite entry_en in Hx. apply elem_of_list_to_map_2, list_elem_of_In in Hx.
    specialize (H (key, x) Hx). cbv beta iota in H.
    destruct (t_of lang (VStr key)) as [[| | | |y| | |]|]; try discriminate.
    apply String.eqb_eq in H. rewrite H. reflexivity.
Qed.

Lemma literal_keys_in_table : Forall (fun key => is_Some (entry "en" key)) literal_keys.
Proof.
  apply Forall_forall. intros key Hin.
  assert (H : forallb (fun key => match entry "en" key with Some _ => true | None => false end)
                literal_keys = true) by (vm_compute; reflexivity).
  rewrite forallb_forall in H. specialize (H key (proj1 (list_elem_of_In _ _) Hin)).
  destruct (entry "en" key); [eauto | discriminate].
Qed.

Lemma action_keys_in_table tool key :
  action_map !! tool = Some key -> is_Some (entry "en" key) /\ nonempty key = true.
Proof.
  revert tool key.
  change (map_Forall (fun _ key => is_Some (entry "en" key) /\ nonempty key = true) action_map).
  assert (H : map_Forall (fun _ key =>
                match entry "en" key with Some _ => nonempty key | None => false end = true)
                action_map).
  { apply (bool_decide_unpack _). vm_compute. exact I. }
  intros tool key Hk. specialize (H tool key Hk). cbv beta in H.
  destruct (entry "en" key); [split; [eauto | exact H] | discriminate].
Qed.

Lemma builtin_text_not_accessor b :
  builtin_text b <> "caller" /\ builtin_text b <> "arguments".
Proof. destruct b; split; discriminate. Qed.

Lemma function_member_convertible k :
  k <> "caller" -> k <> "arguments" ->
  exists v, function_member k = Ok v /\ convertible v = true.
Proof.
  intros Hc Ha. unfold function_member.
  rewrite bool_decide_eq_false_2.
  2: { rewrite !elem_of_cons, elem_of_nil. intros [->|[->|[]]]; contradiction. }
  case_bool_decide; [eexists; split; reflexivity|].
  destruct (String.eqb k "constructor"); [eexists; split; reflexivity|].
  destruct (String.eqb k "__proto__"); [eexists; split; reflexivity|].
  eexists. split; [reflexivity | apply inherited_convertible].
Qed.

Lemma builtin_get_convertible b k :
  k <> "caller" -> k <> "arguments" ->
  exists v, builtin_get b k = Ok v /\ convertible v = true.
Proof.
  intros Hc Ha. destruct b as [| |name]; unfold builtin_get.
  - destruct (String.eqb k "__proto__"); eexists; split;
      first [reflexivity | apply inherited_convertible].
  - destruct (String.eqb k "length"); [eexists; split; reflexivity|].
    destruct (String.eqb k "name"); [eexists; split; reflexivity|].
    destruct (String.eqb k "__proto__"); [eexists; split; reflexivity|].
    apply function_member_convertible; assumption.
  - destruct (String.eqb k "length"); [eexists; split; reflexivity|].
    destruct (String.eqb k "name"); [eexists; split; reflexivity|].
    destruct (_ && _); [eexists; split; reflexivity|].
    destruct (_ && _); [eexists; split; reflexivity|].
    destruct (_ && _); [eexists; split; reflexivity|].
    apply function_member_convertible; assumption.
Qed.

Lemma table_get_convertible table k : convertible (table_get table k) = true.
Proof.
  unfold table_get, lookup. destruct (table !! k); [reflexivity|].
  apply inherited_convertible.
Qed.

Lemma or_convertible a b :
  convertible a = true -> convertible b = true -> convertible (or a b) = true.
Proof. intros Ha Hb. unfold or. destruct (truthy a); assumption. Qed.

(** [t] throws only on a key that has no text, or under a language that
    names a built-in function, on the accessors of functions. *)
Lemma t_of_convertible lang key k :
  ToString key = Ok k -> k <> "caller" -> k <> "arguments" ->
  exists v, t_of lang key = Ok v /\ convertible v = true.
Proof.
  intros Hk Hc Ha. unfold t_of. rewrite Hk. bind_step.
  assert (Hkey : convertible key = true) by (unfold convertible; rewrite Hk; reflexivity).
  assert (Hcur : exists c, t_current lang k = Ok c /\ convertible c = true).
  { unfold t_current. destruct (I18N !! lang) as [table|].
    - eexists. split; [reflexivity | apply table_get_convertible].
    - destruct (inherited_cases lang) as [->|[[b ->] _]].
      + eexists. split; reflexivity.
      + apply builtin_get_convertible; assumption. }
  destruct Hcur as (c & -> & Hcv). bind_step.
  eexists. split; [reflexivity|].
  apply or_convertible; [exact Hcv|].
  apply or_convertible; [apply table_get_convertible | exact Hkey].
Qed.


(** ** Conversions *)

Lemma convertible_ok v : convertible v = true <-> exists u, ToString v = Ok u.
Proof.
  unfold convertible. destruct (ToString v) as [u|e].
  - split; eauto.
  - split; [discriminate | intros [u H]; discriminate].
Qed.

Lemma convertible_throw v : convertible v = false <-> exists e, ToString v = Throw e.
Proof.
  unfold convertible. destruct (ToString v) as [u|e].
  - split; [discriminate | intros [e H]; discriminate].
  - split; eauto.
Qed.

(** What has no text is an array or an object, and counts as true. *)
Lemma unconvertible_truthy v : convertible v = false -> truthy v = true.
Proof. destruct v as [| |b|x|x|items|props|b]; try discriminate; reflexivity. Qed.

Lemma or_unconvertible a b : convertible a = false -> or a b = a.
Proof. intros H. unfold or. rewrite (unconvertible_truthy a H). reflexivity. Qed.

Lemma lookup_convertible (own : option string) k :
  convertible (lookup (VStr <$> own) k) = true.
Proof. destruct own; [reflexivity | apply inherited_convertible]. Qed.

Lemma statusLabel_convertible lang v :
  convertible v = true ->
  exists label, statusLabel lang v = Ok label /\ convertible label = true.
Proof.
  intros Hv. pose proof Hv as Hv'. apply convertible_ok in Hv' as [k Hk].
  unfold statusLabel. rewrite Hk. bind_step.
  eexists. split; [reflexivity|].
  apply or_convertible; [apply lookup_convertible | exact Hv].
Qed.

Lemma statusLabel_throw lang v :
  convertible v = false -> exists e, statusLabel lang v = Throw e.
Proof.
  intros Hv. apply convertible_throw in Hv as [e He].
  unfold statusLabel. rewrite He. eauto.
Qed.

Lemma actionLabel_convertible lang tool :
  convertible tool = true ->
  exists label, actionLabel lang tool = Ok label /\ convertible label = true.
Proof.
  intros Hv. apply convertible_ok in Hv as [k Hk].
  unfold actionLabel. rewrite Hk. bind_step. cbv zeta.
  destruct (action_map !! k) as [key|] eqn:Hm.
  - destruct (action_keys_in_table _ _ Hm) as [Hin Hne].
    change (lookup (VStr <$> Some key) k) with (VStr key).
    unfold or. cbn [truthy]. rewrite Hne. cbn [truthy]. rewrite Hne.
    rewrite (t_of_table_key lang key Hin). eexists. split; reflexivity.
  - change (lookup (VStr <$> None) k) with (inherited k).
    destruct (inherited_cases k) as [->|[[b ->] _]].
    + eexists. split; reflexivity.
    + unfold or. cbn [truthy]. cbv iota.
      destruct (builtin_text_not_accessor b) as [Hc Ha].
      exact (t_of_convertible lang (VBuiltin b) (builtin_text b) eq_refl Hc Ha).
Qed.

Lemma actionLabel_throw lang tool :
  convertible tool = false -> exists e, actionLabel lang tool = Throw e.
Proof.
  intros Hv. apply convertible_throw in Hv as [e He].
  unfold actionLabel. rewrite He. eauto.
Qed.

Lemma join_each_convertible parts :
  Forall (fun v => convertible v = true) parts ->
  exists texts, join_each parts = Ok texts.
Proof.
  induction 1 as [|v parts Hv _ [texts IH]]; [eexists; reflexivity|].
  apply convertible_ok in Hv as [u Hu]. cbn [join_each]. rewrite IH.
  destruct v; bind_step; try rewrite Hu; bind_step; eexists; reflexivity.
Qed.

Lemma join_each_throw parts v :
  v ∈ parts -> convertible v = false -> exists e, join_each parts = Throw e.
Proof.
  intros Hin Hv. induction parts as [|x parts IH]; [inversion Hin|].
  cbn [join_each]. apply elem_of_cons in Hin as [<-|Hin].
  - apply convertible_throw in Hv as [e He].
    destruct v; try discriminate; rewrite He; eauto.
  - destruct (IH Hin) as [e He]. rewrite He.
    destruct (match x with VUndefined | VNull => Ok "" | _ => ToString x end);
      bind_step; eauto.
Qed.

Lemma push_if_convertible c v parts :
  (c = true -> convertible v = true) ->
  Forall (fun v => convertible v = true) parts ->
  Forall (fun v => convertible v = true) (push_if c v parts).
Proof.
  intros Hv Hp. unfold push_if. destruct c; [|exact Hp].
  apply Forall_app. split; [exact Hp|]. constructor; [auto | constructor].
Qed.

Lemma push_if_elem c v w parts : w ∈ parts -> w ∈ push_if c v parts.
Proof. intros H. unfold push_if. destruct c; [|exact H]. apply elem_of_app. auto. Qed.

Lemma push_if_here v parts : v ∈ push_if true v parts.
Proof. unfold push_if. apply elem_of_app. right. apply list_elem_of_here. Qed.

(** ** The log line *)

(** The log listener builds its line unless one of the fields it prints has
    no text. *)
Lemma log_line_convertible lang data :
  Forall (fun f => convertible (field data f) = true) (printed Log) ->
  exists line, log_line lang data = Ok line.
Proof.
  unfold printed. rewrite !Forall_cons.
  intros (Htool & Hstep & Hstatus & Hreason & Herror & _).
  assert (Htool' : convertible (or (field data "tool") (VStr "")) = true)
    by (apply or_convertible; [exact Htool | reflexivity]).
  destruct (actionLabel_convertible lang _ Htool') as (action & Ha & Hac).
  unfold log_line, log_message, log_parts. rewrite Ha. bind_step. cbv zeta.
  assert (Hstep' : convertible (or (field data "step") (VStr "")) = true)
    by (apply or_convertible; [exact Hstep | reflexivity]).
  apply convertible_ok in Hstep' as [st Hst]. rewrite Hst. bind_step.
  match goal with |- context [join " " ?parts] =>
    assert (Hparts : Forall (fun v => convertible v = true) parts) end.
  { repeat apply push_if_convertible; auto. }
  destruct (join_each_convertible _ Hparts) as [texts Hj].
  unfold join. rewrite Hj. bind_step.
  unfold log_errorText. destruct (truthy (field data "error")).
  - apply convertible_ok in Herror as [er Her]. rewrite Her. bind_step. eauto.
  - bind_step. eauto.
Qed.

Lemma log_line_throw lang data f :
  f ∈ printed Log -> convertible (field data f) = false ->
  exists e, log_line lang data = Throw e.
Proof.
  intros Hin Hf. pose proof (unconvertible_truthy _ Hf) as Ht.
  unfold log_line, log_message, log_parts.
  destruct (actionLabel lang (or (field data "tool") (VStr ""))) as [action|e] eqn:Ha;
    [|eauto].
  bind_step. cbv zeta.
  destruct (ToString (or (field data "step") (VStr ""))) as [st|e] eqn:Hst; [|eauto].
  bind_step.
  destruct (join " " _) as [fragments|e] eqn:Hj; [|eauto].
  bind_step.
  destruct (log_errorText data) as [errorText|e] eqn:He; [|eauto].
  exfalso. unfold printed in Hin.
  rewrite !elem_of_cons, elem_of_nil in Hin.
  destruct Hin as [->|[->|[->|[->|[->|[]]]]]].
  - rewrite (or_unconvertible _ _ Hf) in Ha.
    destruct (actionLabel_throw lang _ Hf) as [e He']. congruence.
  - rewrite (or_unconvertible _ _ Hf) in Hst.
    apply convertible_throw in Hf as [e He']. congruence.
  - unfold join in Hj. rewrite Ht in Hj.
    match type of Hj with context [join_each ?parts] =>
      destruct (join_each_throw parts (field data "status")) as [e He'] end;
      [apply push_if_elem, push_if_elem, push_if_here | exact Hf |].
    rewrite He' in Hj. discriminate.
  - unfold join in Hj. rewrite Ht in Hj.
    match type of Hj with context [join_each ?parts] =>
      destruct (join_each_throw parts (field data "reason")) as [e He'] end;
      [apply push_if_elem, push_if_here | exact Hf |].
    rewrite He' in Hj. discriminate.
  - unfold log_errorText in He. rewrite Ht in He.
    apply convertible_throw in Hf as [e He']. rewrite He' in He. discriminate.
Qed.

(** ** The subscriptions *)

Lemma is_open_lookup i s :
  is_open i s = true <->
  exists es, sources s !! i = Some es /\ es_closed es = false.
Proof.
  unfold is_open. destruct (sources s !! i) as [es|].
  - destruct (es_closed es) eqn:E; simpl; split.
    + discriminate.
    + intros (es' & [= <-] & H). congruence.
    + eauto.
    + reflexivity.
  - split; [discriminate | intros (es & H & _); discriminate].
Qed.

Lemma is_open_frame i s s' :
  sources s' = sources s -> is_open i s' = is_open i s.
Proof. intros H. unfold is_open. rewrite H. reflexivity. Qed.

Lemma is_open_close_source i j s :
  is_open i (close_source j s) = if decide (i = j) then false else is_open i s.
Proof.
  unfold is_open, close_source. simpl.
  destruct (decide (i = j)) as [->|Hne].
  - rewrite list_lookup_alter_eq. destruct (sources s !! j); reflexivity.
  - rewrite list_lookup_alter_ne by congruence. reflexivity.
Qed.

Lemma close_source_closed i s :
  is_open i s = false -> sources (close_source i s) = sources s.
Proof.
  unfold is_open, close_source. simpl. intros H.
  apply list_eq. intros j. destruct (decide (j = i)) as [->|Hne].
  - rewrite list_lookup_alter_eq.
    destruct (sources s !! i) as [[u c]|]; [|reflexivity].
    simpl in *. destruct c; [reflexivity | discriminate].
  - rewrite list_lookup_alter_ne by congruence. reflexivity.
Qed.

Lemma filter_closed_nil (l : list EventSourceObj) :
  Forall (fun es => es_closed es = true) l ->
  List.filter (fun es => negb (es_closed es)) l = [].
Proof.
  induction 1 as [|es l Hes _ IH]; [reflexivity|]. simpl. rewrite Hes. exact IH.
Qed.

Lemma open_sources_nil s :
  (forall i, is_open i s = false) -> open_sources s = [].
Proof.
  unfold open_sources, is_open. intros H. apply filter_closed_nil.
  apply Forall_lookup_2. intros i es Hi. specialize (H i). rewrite Hi in H.
  destruct (es_closed es); [reflexivity | discriminate].
Qed.

Lemma close_current_all_closed s i :
  single_active s -> is_open i (close_current s) = false.
Proof.
  intros Hinv. unfold close_current.
  destruct (eventSource s) as [c|] eqn:Hc.
  - rewrite is_open_close_source. destruct (decide (i = c)); [reflexivity|].
    destruct (is_open i s) eqn:Ho; [|reflexivity].
    apply Hinv in Ho. congruence.
  - destruct (is_open i s) eqn:Ho; [|reflexivity].
    apply Hinv in Ho. congruence.
Qed.

Lemma close_current_noop s :
  (forall i, eventSource s = Some i -> is_open i s = false) ->
  sources (close_current s) = sources s.
Proof.
  intros H. unfold close_current. destruct (eventSource s) as [c|]; [|reflexivity].
  apply close_source_closed. auto.
Qed.

Lemma close_current_length s :
  length (sources (close_current s)) = length (sources s).
Proof.
  unfold close_current. destruct (eventSource s); [|reflexivity].
  unfold close_source. simpl. apply length_alter.
Qed.

Lemma close_current_fields s :
  eventSource (close_current s) = eventSource s
  /\ taskId (close_current s) = taskId s
  /\ confirmDisabled (close_current s) = confirmDisabled s
  /\ stopDisabled (close_current s) = stopDisabled s
  /\ runDisabled (close_current s) = runDisabled s
  /\ waitingForUserInput (close_current s) = waitingForUserInput s
  /\ replyHidden (close_current s) = replyHidden s.
Proof.
  unfold close_current. destruct (eventSource s) eqn:E; repeat split; exact E.
Qed.

Lemma close_current_rest s :
  statusText (close_current s) = statusText s
  /\ logText (close_current s) = logText s
  /\ currentLang (close_current s) = currentLang s
  /\ localStorage (close_current s) = localStorage s
  /\ requests (close_current s) = requests s.
Proof.
  unfold close_current. destruct (eventSource s); repeat split.
Qed.

Lemma close_current_single_active s :
  single_active s -> single_active (close_current s).
Proof.
  intros Hinv i Ho. rewrite close_current_all_closed in Ho by exact Hinv.
  discriminate.
Qed.

(** A handler that leaves the subscriptions alone keeps the invariant. *)
Lemma single_active_frame s s' :
  sources s' = sources s -> eventSource s' = eventSource s ->
  single_active s -> single_active s'.
Proof.
  intros Hs He Hinv i Ho. rewrite He. apply Hinv.
  unfold is_open in *. rewrite Hs in Ho. exact Ho.
Qed.

(** The two ways [connectEvents] ends. *)
Lemma connectEvents_returned id u s :
  ToString id = Ok u ->
  exists s',
    connectEvents id s = Returned s'
    /\ sources s'
       = (sources (close_current s)
          ++ [{| es_url := events_url u; es_closed := false |}])%list
    /\ eventSource s' = Some (length (sources s))
    /\ taskId s' = taskId s
    /\ stopDisabled s' = stopDisabled s
    /\ statusText s' = statusText s
    /\ runDisabled s' = runDisabled s
    /\ confirmDisabled s' = confirmDisabled s
    /\ localStorage s' = localStorage s
    /\ currentLang s' = currentLang s.
Proof.
  intros Hu. unfold connectEvents. rewrite Hu. cbv zeta.
  eexists. split; [reflexivity|]. split; [reflexivity|].
  split; [cbn; rewrite close_current_length; reflexivity|].
  destruct (close_current_fields s) as (_ & Hid & Hc & Hst & Hrun & _).
  destruct (close_current_rest s) as (Htext & _ & Hlang & Hstore & _).
  repeat split; assumption.
Qed.

Lemma connectEvents_thrown id e s :
  ToString id = Throw e -> connectEvents id s = Thrown e (close_current s).
Proof. intros He. unfold connectEvents. rewrite He. reflexivity. Qed.

Lemma opened_single_active s s' x :
  single_active s ->
  sources s' = (sources (close_current s) ++ [x])%list ->
  eventSource s' = Some (length (sources s)) ->
  single_active s'.
Proof.
  intros Hinv Hsrc Hcur i Ho. rewrite Hcur.
  apply is_open_lookup in Ho as (es & Hi & Hc). rewrite Hsrc in Hi.
  destruct (decide (i < length (sources s))) as [Hlt|Hge].
  - rewrite lookup_app_l in Hi by (rewrite close_current_length; lia).
    assert (Ho : is_open i (close_current s) = true).
    { apply is_open_lookup. eauto. }
    rewrite close_current_all_closed in Ho by exact Hinv. discriminate.
  - apply lookup_lt_Some in Hi. rewrite length_app, close_current_length in Hi.
    simpl in Hi. f_equal. lia.
Qed.

Lemma opened_open_sources s s' x :
  single_active s -> es_closed x = false ->
  sources s' = (sources (close_current s) ++ [x])%list ->
  open_sources s' = [x].
Proof.
  intros Hinv Hx Hsrc. unfold open_sources. rewrite Hsrc, List.filter_app.
  fold (open_sources (close_current s)).
  rewrite open_sources_nil by (intros i; apply close_current_all_closed; exact Hinv).
  simpl. rewrite Hx. reflexivity.
Qed.

Lemma connectEvents_single_active id s :
  single_active s -> single_active (state_after (connectEvents id s)).
Proof.
  intros Hinv. destruct (ToString id) as [u|e] eqn:Hid.
  - destruct (connectEvents_returned id u s Hid) as (s' & -> & Hsrc & Hcur & _).
    exact (opened_single_active s s' _ Hinv Hsrc Hcur).
  - rewrite (connectEvents_thrown id e s Hid).
    apply close_current_single_active, Hinv.
Qed.

(** ** The listeners *)

Lemma event_data_cases d :
  (exists data, event_data d = Ok data) \/ (exists e, event_data d = Throw e).
Proof. destruct (event_data d); eauto. Qed.

Lemma is_terminal_text v :
  is_terminal v = true ->
  exists x, v = VStr x /\ x ∈ ["done"; "stopped"; "error"] /\ nonempty x = true.
Proof.
  destruct v as [| | | |x| | |]; try discriminate. cbn [is_terminal].
  intros H. apply bool_decide_eq_true in H. exists x. split; [reflexivity|].
  split; [exact H|]. revert H. rewrite !elem_of_cons, elem_of_nil.
  intros [->|[->|[->|[]]]]; reflexivity.
Qed.

(** What a listener that returns leaves behind: a state [s0] that differs
    from [s] in the log, the status line, the controls and the awaiting
    flag at most, with the current subscription closed on top of that when
    the listener is the one for status and the status is terminal. *)
Lemma listener_returns k d s s' :
  listener k d s = Ok s' ->
  exists data s0,
    event_data d = Ok data
    /\ ((s' = s0 /\ runDisabled s0 = runDisabled s
         /\ (k = Status -> is_terminal (field data "status") = false)
         /\ (k = Log \/ k = Result \/ k = Status ->
             confirmDisabled s0 = confirmDisabled s))
        \/ (k = Status /\ is_terminal (field data "status") = true
            /\ s' = close_current s0
            /\ confirmDisabled s0 = true /\ stopDisabled s0 = true
            /\ runDisabled s0 = false /\ waitingForUserInput s0 = false
            /\ replyHidden s0 = true))
    /\ sources s0 = sources s /\ eventSource s0 = eventSource s
    /\ taskId s0 = taskId s /\ localStorage s0 = localStorage s
    /\ currentLang s0 = currentLang s /\ requests s0 = requests s.
Proof.
  destruct (event_data d) as [data|e] eqn:Hd.
  2: { destruct k; cbn [listener]; unfold_listeners; rewrite Hd; discriminate. }
  intros Hl. exists data.
  destruct k; cbn [listener] in Hl; revert Hl; unfold_listeners; rewrite Hd; bind_step.
  - destruct (log_line _ _) as [line|e]; [|discriminate]. bind_step.
    intros [= <-]. eexists. split; [reflexivity|]. split.
    { left. do 2 (split; [reflexivity|]). split; [discriminate | reflexivity]. }
    repeat split.
  - destruct (ToString _) as [summary|e]; [|discriminate]. bind_step.
    intros [= <-]. eexists. split; [reflexivity|]. split.
    { left. do 2 (split; [reflexivity|]). split; [discriminate|].
      intros [H|[H|H]]; discriminate. }
    repeat split.
  - destruct (ToString _) as [question|e]; [|discriminate]. bind_step.
    intros [= <-]. eexists. split; [reflexivity|]. split.
    { left. do 2 (split; [reflexivity|]). split; [discriminate|].
      intros [H|[H|H]]; discriminate. }
    repeat split.
  - destruct (ToString _) as [shown|e]; [|discriminate]. bind_step.
    intros [= <-]. eexists. split; [reflexivity|]. split.
    { left. do 2 (split; [reflexivity|]). split; [discriminate | reflexivity]. }
    repeat split.
  - destruct (statusLabel _ _) as [label|e]; [|discriminate]. bind_step.
    destruct (ToString label) as [shown|e]; [|discriminate]. bind_step. cbv zeta.
    destruct (is_terminal (field data "status")) eqn:Ht; cbv iota.
    + intros [= <-]. eexists. split; [reflexivity|]. split.
      { right. repeat split. }
      repeat split.
    + intros [= <-]. eexists. split; [reflexivity|]. split.
      { left. do 2 (split; [reflexivity|]). split; [reflexivity | reflexivity]. }
      repeat split.
Qed.


(** What the status listener does on a terminal value, in one piece: the
    controls are reset on a state [s0] that has the subscriptions of [s],
    and then the current subscription is closed. *)
Lemma on_status_terminal d s data :
  event_data d = Ok data -> is_terminal (field data "status") = true ->
  exists s0,
    on_status d s = Ok (close_current s0)
    /\ sources s0 = sources s /\ eventSource s0 = eventSource s
    /\ taskId s0 = taskId s
    /\ confirmDisabled s0 = true /\ stopDisabled s0 = true
    /\ runDisabled s0 = false /\ waitingForUserInput s0 = false
    /\ replyHidden s0 = true.
Proof.
  intros Hd Ht. destruct (is_terminal_text _ Ht) as (x & Hx & _ & Hne).
  unfold on_status. rewrite Hd. bind_step. rewrite Ht, Hx.
  assert (Hor : or (VStr x) (VStr "") = VStr x) by (unfold or; cbn [truthy]; rewrite Hne; reflexivity).
  rewrite Hor.
  destruct (statusLabel_convertible (currentLang s) (VStr x) eq_refl) as (label & -> & Hc).
  apply convertible_ok in Hc as [shown ->].
  eexists. split; [reflexivity|]. repeat split.
Qed.

Lemma listener_single_active k d s :
  single_active s -> single_active (settle s (listener k d s)).
Proof.
  intros Hinv. destruct (listener k d s) as [s'|e] eqn:Hl; [|exact Hinv].
  cbn [settle].
  destruct (listener_returns k d s s' Hl)
    as (data & s0 & _ & Hs' & Hsrc & Hcur & _).
  pose proof (single_active_frame _ _ Hsrc Hcur Hinv) as Hinv0.
  destruct Hs' as [(-> & _)|(_ & _ & -> & _)]; [exact Hinv0|].
  apply close_current_single_active, Hinv0.
Qed.

(** The ways the run handler ends once the response is in. *)
Lemma run_response_rejected r s detail :
  resp_ok r = false -> rejection_text r = Ok detail ->
  run_response r s
  = Returned
      (with_runDisabled false
         (setStatus (t (currentLang s) "status_prefix" +:+ " "
                     +:+ t (currentLang s) "status_error")
            (appendLog (t (currentLang s) "log_failed_start" +:+ ": " +:+ detail) s))).
Proof. intros Hok Ht. unfold run_response. rewrite Hok, Ht. reflexivity. Qed.

Lemma run_response_unread r s e :
  (if resp_ok r then created_id r = Throw e else rejection_text r = Throw e) ->
  run_response r s = Thrown e s.
Proof.
  unfold run_response. destruct (resp_ok r); intros ->; reflexivity.
Qed.

Lemma run_response_created r s id :
  resp_ok r = true -> created_id r = Ok id ->
  run_response r s = connectEvents id (with_stopDisabled false (with_taskId id s)).
Proof. intros Hok Hid. unfold run_response. rewrite Hok, Hid. reflexivity. Qed.

Lemma run_response_cases r s :
  (exists id,
      resp_ok r = true
      /\ run_response r s = connectEvents id (with_stopDisabled false (with_taskId id s)))
  \/ (exists s',
        run_response r s = Returned s'
        /\ sources s' = sources s /\ eventSource s' = eventSource s
        /\ taskId s' = taskId s /\ localStorage s' = localStorage s
        /\ currentLang s' = currentLang s /\ confirmDisabled s' = confirmDisabled s)
  \/ (exists e, run_response r s = Thrown e s).
Proof.
  destruct (resp_ok r) eqn:Hok.
  - destruct (created_id r) as [id|e] eqn:Hid.
    + left. exists id. split; [reflexivity|]. apply run_response_created; assumption.
    + right. right. exists e. apply run_response_unread. rewrite Hok. exact Hid.
  - destruct (rejection_text r) as [detail|e] eqn:Ht.
    + right. left. eexists. split; [apply run_response_rejected; eassumption|].
      repeat split.
    + right. right. exists e. apply run_response_unread. rewrite Hok. exact Ht.
Qed.

Lemma run_response_single_active r s :
  single_active s -> single_active (state_after (run_response r s)).
Proof.
  intros Hinv.
  destruct (run_response_cases r s) as [(id & _ & ->)|[(s' & -> & Hs & Hc & _)|(e & ->)]].
  - apply connectEvents_single_active.
    exact (single_active_frame _ s eq_refl eq_refl Hinv).
  - exact (single_active_frame _ _ Hs Hc Hinv).
  - exact Hinv.
Qed.

Lemma stop_click_frame s :
  sources (stop_click s) = sources s /\ eventSource (stop_click s) = eventSource s
  /\ taskId (stop_click s) = taskId s /\ localStorage (stop_click s) = localStorage s
  /\ currentLang (stop_click s) = currentLang s
  /\ runDisabled (stop_click s) = runDisabled s
  /\ confirmDisabled (stop_click s) = confirmDisabled s.
Proof.
  unfold stop_click. destruct (negb _); [repeat split|].
  cbv zeta. destruct (ToString _); repeat split.
Qed.

Lemma confirm_click_frame s :
  sources (confirm_click s) = sources s /\ eventSource (confirm_click s) = eventSource s
  /\ taskId (confirm_click s) = taskId s /\ localStorage (confirm_click s) = localStorage s
  /\ currentLang (confirm_click s) = currentLang s
  /\ runDisabled (confirm_click s) = runDisabled s.
Proof.
  unfold confirm_click. destruct (negb _); [repeat split|].
  cbv zeta. cbn [waitingForUserInput with_confirmDisabled setStatus with_statusText].
  destruct (waitingForUserInput s); [|repeat split].
  destruct (negb _); repeat split.
Qed.

Lemma run_click_frame s :
  sources (run_click s) = sources s /\ eventSource (run_click s) = eventSource s
  /\ taskId (run_click s) = taskId s /\ localStorage (run_click s) = localStorage s
  /\ currentLang (run_click s) = currentLang s.
Proof. unfold run_click. destruct (negb _); repeat split. Qed.

Lemma on_provider_change_frame s :
  sources (on_provider_change s) = sources s
  /\ eventSource (on_provider_change s) = eventSource s
  /\ taskId (on_provider_change s) = taskId s
  /\ currentLang (on_provider_change s) = currentLang s
  /\ runDisabled (on_provider_change s) = runDisabled s
  /\ confirmDisabled (on_provider_change s) = confirmDisabled s.
Proof.
  unfold on_provider_change. cbv zeta.
  destruct (getItem _ _) as [m|]; [destruct (nonempty m)|]; repeat split.
Qed.

Lemma step_single_active a s :
  single_active s -> single_active (step a s).
Proof.
  intros Hinv. destruct a; cbn [step]; try exact Hinv.
  - destruct (run_click_frame s) as (Hs & Hc & _).
    exact (single_active_frame _ _ Hs Hc Hinv).
  - apply run_response_single_active, Hinv.
  - destruct (confirm_click_frame s) as (Hs & Hc & _).
    exact (single_active_frame _ _ Hs Hc Hinv).
  - destruct (stop_click_frame s) as (Hs & Hc & _).
    exact (single_active_frame _ _ Hs Hc Hinv).
  - destruct (is_open i s); [|exact Hinv]. apply listener_single_active, Hinv.
  - destruct (is_open i s); exact Hinv.
  - case_bool_decide; exact Hinv.
  - case_bool_decide; [|exact Hinv].
    destruct (on_provider_change_frame (with_providerValue p s)) as (Hs & Hc & _).
    exact (single_active_frame _ _ Hs Hc Hinv).
  - case_bool_decide; exact Hinv.
Qed.

Lemma loadSettings_frame s :
  sources (loadSettings s) = sources s /\ eventSource (loadSettings s) = eventSource s.
Proof.
  unfold loadSettings. cbv zeta.
  split_cases; split; reflexivity.
Qed.

Lemma resetUI_frame s : sources (resetUI s) = sources s.
Proof. reflexivity. Qed.

Lemma init_sources store : sources (init store) = [].
Proof.
  unfold init. rewrite resetUI_frame, (proj1 (loadSettings_frame _)). reflexivity.
Qed.

Lemma init_none_open store i : is_open i (init store) = false.
Proof. unfold is_open. rewrite init_sources. reflexivity. Qed.

Lemma init_single_active store : single_active (init store).
Proof. intros i Ho. rewrite init_none_open in Ho. discriminate. Qed.

Lemma run_single_active acts s :
  single_active s -> single_active (run acts s).
Proof.
  revert s. induction acts as [|a acts IH]; intros s Hinv; [exact Hinv|].
  simpl. apply IH, step_single_active, Hinv.
Qed.

Lemma reachable_single_active s : reachable s -> single_active s.
Proof.
  intros (store & acts & ->). apply run_single_active, init_single_active.
Qed.

Lemma reachable_step a s : reachable s -> reachable (step a s).
Proof.
  intros (store & acts & ->). exists store, (acts ++ [a])%list.
  unfold run. rewrite List.fold_left_app. reflexivity.
Qed.

(** No step but the language toggle changes the language. *)
Lemma step_currentLang a s :
  a <> LangToggle -> currentLang (step a s) = currentLang s.
Proof.
  intros Ha. destruct a; cbn [step]; try reflexivity; try contradiction.
  - apply run_click_frame.
  - destruct (run_response_cases r s) as [(id & _ & ->)|[(s' & -> & H)|(e & ->)]].
    + set (s1 := with_stopDisabled false (with_taskId id s)).
      change (currentLang s) with (currentLang s1).
      destruct (ToString id) as [u|e] eqn:Hid.
      * destruct (connectEvents_returned id u s1 Hid) as (s' & -> & H). apply H.
      * rewrite (connectEvents_thrown id e s1 Hid). apply close_current_rest.
    + apply H.
    + reflexivity.
  - apply confirm_click_frame.
  - apply stop_click_frame.
  - destruct (is_open i s); [|reflexivity].
    destruct (listener k d s) as [s'|e] eqn:Hl; [|reflexivity]. cbn [settle].
    destruct (listener_returns k d s s' Hl)
      as (data & s0 & _ & Hs' & _ & _ & _ & _ & Hlang & _).
    destruct Hs' as [(-> & _)|(_ & _ & -> & _)]; [exact Hlang|].
    rewrite (proj1 (proj2 (proj2 (close_current_rest s0)))). exact Hlang.
  - destruct (is_open i s); reflexivity.
  - case_bool_decide; reflexivity.
  - case_bool_decide; [|reflexivity].
    exact (proj1 (proj2 (proj2 (proj2
             (on_provider_change_frame (with_providerValue p s)))))).
  - case_bool_decide; reflexivity.
Qed.


(** ** Localization resolution *)

(** C8, as stated, fails: neither table has an entry [constructor], yet
    resolving that key does not give the key back: the lookup on the table
    finds the member of that name the table inherits, the function
    [Object]. And there is no table of a language [constructor], nor an
    English entry [name], yet resolving [name] in that language gives the
    name of the function [I18N] inherits under [constructor]. *)
Lemma inherited_key_is_not_returned :
  entry "ru" "constructor" = None
  /\ entry "en" "constructor" = None
  /\ t_of "ru" (VStr "constructor") = Ok (VBuiltin (NativeFunction "Object"))
  /\ t_of "ru" (VStr "constructor") <> Ok (VStr "constructor")
  /\ entry "constructor" "name" = None
  /\ entry "en" "name" = None
  /\ t_of "constructor" (VStr "name") = Ok (VStr "Object").
Proof.
  split; [|split; [|split; [|split; [|split; [|split]]]]].
  - vm_compute. reflexivity.
  - vm_compute. reflexivity.
  - vm_compute. reflexivity.
  - vm_compute. discriminate.
  - vm_compute. reflexivity.
  - vm_compute. reflexivity.
  - vm_compute. reflexivity.
Qed.

Lemma entry_none_inherited lang key b :
  inherited key = VBuiltin b -> entry lang key = None.
Proof.
  intros Hb. destruct (entry lang key) as [x|] eqn:He; [|reflexivity].
  rewrite (entry_own _ _ _ He) in Hb. discriminate.
Qed.

Lemma t_of_inherited_key lang key b :
  inherited lang = VUndefined -> inherited key = VBuiltin b ->
  t_of lang (VStr key) = Ok (VBuiltin b).
Proof.
  intros Hlang Hkey. unfold t_of. cbn [ToString]. bind_step.
  assert (Hen : t_english key = VBuiltin b).
  { rewrite t_english_entry, (entry_none_inherited "en" key b Hkey). exact Hkey. }
  unfold t_current. destruct (I18N !! lang) as [table|] eqn:Hl.
  - rewrite (table_get_entry lang _ _ Hl).
    pose proof (entry_none_inherited lang key b Hkey) as He.
    unfold entry in He. rewrite Hl in He. rewrite He, Hkey. reflexivity.
  - rewrite Hlang, Hen. reflexivity.
Qed.

(** C8, amended. For a language tag and a key neither of which is the name
    of a member of [Object.prototype], resolution returns the entry of the
    table of that language for the key when there is one, otherwise the
    entry of the English table when there is one, otherwise the key itself;
    for a key that is such a name it returns the inherited member. Between
    two resolutions of a key the result changes only if the language was
    toggled. *)
Theorem t_resolution (lang key : string) :
  (inherited lang = VUndefined -> inherited key = VUndefined ->
     t_of lang (VStr key)
     = Ok (VStr match I18N !! lang ≫= (fun table => table !! key) with
                | Some x => x
                | None =>
                    match I18N !! "en" ≫= (fun table => table !! key) with
                    | Some x => x
                    | None => key
                    end
                end))
  /\ (inherited lang = VUndefined -> inherited key <> VUndefined ->
        t_of lang (VStr key) = Ok (inherited key))
  /\ forall a s, a <> LangToggle ->
       t_of (currentLang (step a s)) (VStr key) = t_of (currentLang s) (VStr key).
Proof.
  split; [|split].
  - intros Hlang Hkey. rewrite (t_of_entries lang key Hlang Hkey). do 2 f_equal.
    change (I18N !! lang ≫= (fun table => table !! key)) with (entry lang key).
    change (I18N !! "en" ≫= (fun table => table !! key)) with (entry "en" key).
    destruct (entry lang key) as [x|] eqn:Hl.
    + apply t_entry, Hl.
    + rewrite (t_fallback _ _ Hl). destruct (entry "en" key); reflexivity.
  - intros Hlang Hkey.
    destruct (inherited_cases key) as [H|[[b Hb] _]]; [contradiction|].
    rewrite Hb. apply t_of_inherited_key; assumption.
  - intros a s Ha. rewrite (step_currentLang a s Ha). reflexivity.
Qed.

Lemma t_resolution_witness :
  inherited "de" = VUndefined
  /\ t_of "de" (VStr "button_run") = Ok (VStr "Run")
  /\ t_of "ru" (VStr "button_run") = Ok (VStr "Запустить")
  /\ t_of "ru" (VStr "no_such_key") = Ok (VStr "no_such_key")
  /\ t_of "ru" (VStr "toString") = Ok (VBuiltin (NativeFunction "toString")).
Proof.
  split; [reflexivity|].
  split; [|split; [|split]].
  - rewrite (proj1 (t_resolution "de" "button_run") eq_refl eq_refl).
    vm_compute. reflexivity.
  - rewrite (proj1 (t_resolution "ru" "button_run") eq_refl eq_refl).
    vm_compute. reflexivity.
  - rewrite (proj1 (t_resolution "ru" "no_such_key") eq_refl eq_refl).
    vm_compute. reflexivity.
  - rewrite (proj1 (proj2 (t_resolution "ru" "toString")) eq_refl).
    + vm_compute. reflexivity.
    + vm_compute. discriminate.
Defined.

(** ** Starting a task *)

(** C6. For every prompt whose trimmed value is empty, the run handler
    issues no request, shows the alert, and leaves the status and all the
    rest of the state as they were. *)
Theorem empty_prompt_rejected (s : State) :
  trim (promptValue s) = "" ->
  run_click s = with_alerts (alerts s ++ [t (currentLang s) "alert_enter_task"]) s
  /\ requests (run_click s) = requests s
  /\ statusText (run_click s) = statusText s
  /\ logText (run_click s) = logText s
  /\ runDisabled (run_click s) = runDisabled s.
Proof.
  intros H. unfold run_click. rewrite H. simpl. repeat split.
Qed.

Lemma empty_prompt_rejected_witness :
  requests (run_click blank_prompt) = []
  /\ alerts (run_click blank_prompt) = ["Введите задачу."].
Proof.
  destruct (empty_prompt_rejected blank_prompt) as (Heq & Hreq & _).
  - vm_compute. reflexivity.
  - split.
    + rewrite Hreq. vm_compute. reflexivity.
    + rewrite Heq. vm_compute. reflexivity.
Defined.

(** ** Terminal status events *)

Lemma is_terminal_values v : v ∈ terminal_values -> is_terminal v = true.
Proof.
  unfold terminal_values. rewrite !elem_of_cons, elem_of_nil.
  intros [->|[->|[->|[]]]]; reflexivity.
Qed.

Lemma status_field_data d v :
  status_field d = Ok v -> exists data, event_data d = Ok data /\ field data "status" = v.
Proof.
  unfold status_field. destruct (event_data d) as [data|e]; simpl; [|discriminate].
  intros [= <-]. eauto.
Qed.

(** C1. After a status event whose status field is done, stopped or error,
    whatever events and clicks came before: confirm and stop are disabled,
    run is enabled, the awaiting-reply flag is cleared, the reply input is
    hidden and no subscription is open; where the current subscription was
    closed already, closing it again changes nothing. *)
Theorem terminal_status_cleanup (s : State) (d : text) (v : value) :
  reachable s ->
  status_field d = Ok v ->
  v ∈ terminal_values ->
  exists s',
    on_status d s = Ok s'
    /\ confirmDisabled s' = true
    /\ stopDisabled s' = true
    /\ runDisabled s' = false
    /\ waitingForUserInput s' = false
    /\ replyHidden s' = true
    /\ open_sources s' = []
    /\ (open_sources s = [] -> sources s' = sources s).
Proof.
  intros Hr Hv Ht.
  apply status_field_data in Hv as (data & Hd & <-).
  apply is_terminal_values in Ht.
  destruct (on_status_terminal d s data Hd Ht)
    as (s0 & Hs' & Hsrc & Hcur & _ & Hc & Hst & Hrun & Hw & Hh).
  destruct (close_current_fields s0) as (_ & _ & Hc' & Hst' & Hrun' & Hw' & Hh').
  assert (Hinv : single_active s0).
  { exact (single_active_frame _ _ Hsrc Hcur (reachable_single_active _ Hr)). }
  exists (close_current s0). repeat split; try congruence.
  - apply open_sources_nil. intros i. apply close_current_all_closed, Hinv.
  - intros Hnone. rewrite <- Hsrc. apply close_current_noop.
    intros i _. destruct (is_open i s0) eqn:Ho; [|reflexivity].
    apply is_open_lookup in Ho as (es & Hi & Hc0).
    rewrite Hsrc in Hi. apply list_elem_of_lookup_2 in Hi.
    assert (Hin : es ∈ open_sources s).
    { unfold open_sources. apply list_elem_of_In, List.filter_In. split.
      - apply list_elem_of_In, Hi.
      - rewrite Hc0. reflexivity. }
    rewrite Hnone in Hin. inversion Hin.
Qed.

Lemma awaiting_reply_reachable : reachable awaiting_reply.
Proof. exists ∅, awaiting_reply_script. reflexivity. Qed.

Lemma terminal_status_cleanup_witness :
  status_field (envelope [("status", VStr "done")]) = Ok (VStr "done")
  /\ exists s',
       on_status (envelope [("status", VStr "done")]) awaiting_reply = Ok s'
       /\ confirmDisabled s' = true
       /\ stopDisabled s' = true
       /\ runDisabled s' = false
       /\ waitingForUserInput s' = false
       /\ replyHidden s' = true
       /\ open_sources s' = []
       /\ (open_sources awaiting_reply = [] -> sources s' = sources awaiting_reply).
Proof.
  split; [reflexivity|].
  apply (terminal_status_cleanup awaiting_reply _ (VStr "done")).
  - exact awaiting_reply_reachable.
  - reflexivity.
  - apply list_elem_of_here.
Defined.

(** C4, as stated, fails: once a task has ended the global [taskId] still
    holds its identifier. *)
Lemma task_id_survives_terminal_status :
  statusText ended = "Статус: готово"
  /\ open_sources ended = []
  /\ taskId ended = VStr "t1"
  /\ taskId ended <> VNull.
Proof.
  split; [|split; [|split]].
  - vm_compute. reflexivity.
  - vm_compute. reflexivity.
  - vm_compute. reflexivity.
  - vm_compute. discriminate.
Qed.

Lemma listener_taskId k d s s' : listener k d s = Ok s' -> taskId s' = taskId s.
Proof.
  intros Hl.
  destruct (listener_returns k d s s' Hl)
    as (data & s0 & _ & Hs' & _ & _ & Hid & _).
  destruct Hs' as [(-> & _)|(_ & _ & -> & _)]; [exact Hid|].
  rewrite (proj1 (proj2 (close_current_fields s0))). exact Hid.
Qed.

(** Only the success branch of the run handler assigns [taskId]. *)
Lemma step_taskId a s :
  taskId (step a s) = taskId s \/ exists r, a = RunResponse r /\ resp_ok r = true.
Proof.
  destruct a; cbn [step]; try (left; reflexivity).
  - left. apply run_click_frame.
  - destruct (run_response_cases r s) as [(id & Hok & _)|[(s' & -> & H)|(e & ->)]].
    + right. eauto.
    + left. apply H.
    + left. reflexivity.
  - left. apply confirm_click_frame.
  - left. apply stop_click_frame.
  - left. destruct (is_open i s); [|reflexivity].
    destruct (listener k d s) as [s'|e] eqn:Hl; [|reflexivity].
    simpl. exact (listener_taskId _ _ _ _ Hl).
  - left. destruct (is_open i s); reflexivity.
  - left. case_bool_decide; reflexivity.
  - left. case_bool_decide; [|reflexivity].
    exact (proj1 (proj2 (proj2 (on_provider_change_frame (with_providerValue p s))))).
  - left. case_bool_decide; reflexivity.
Qed.

(** C4, amended. When a status event reports done, stopped or error, the
    stream is closed and no subscription stays open, while the task
    identifier keeps its value; no step other than a success response of
    the task-creation request changes it. *)
Theorem terminal_status_keeps_task_id (s : State) (d : text) (v : value) :
  reachable s ->
  status_field d = Ok v ->
  v ∈ terminal_values ->
  (exists s',
     on_status d s = Ok s'
     /\ open_sources s' = []
     /\ taskId s' = taskId s)
  /\ forall a, taskId (step a s) <> taskId s ->
       exists r, a = RunResponse r /\ resp_ok r = true.
Proof.
  intros Hr Hv Ht. split.
  - apply status_field_data in Hv as (data & Hd & <-).
    apply is_terminal_values in Ht.
    destruct (on_status_terminal d s data Hd Ht)
      as (s0 & Hs' & Hsrc & Hcur & Hid & _).
    exists (close_current s0). split; [exact Hs'|]. split.
    + apply open_sources_nil. intros i. apply close_current_all_closed.
      exact (single_active_frame _ _ Hsrc Hcur (reachable_single_active _ Hr)).
    + rewrite (proj1 (proj2 (close_current_fields s0))). exact Hid.
  - intros a Hne. destruct (step_taskId a s) as [Heq|Hrun]; [contradiction|exact Hrun].
Qed.

Lemma terminal_status_keeps_task_id_witness :
  exists s',
    on_status (envelope [("status", VStr "stopped")]) awaiting_reply = Ok s'
    /\ open_sources s' = []
    /\ taskId s' = taskId awaiting_reply.
Proof.
  apply (terminal_status_keeps_task_id awaiting_reply _ (VStr "stopped")).
  - exact awaiting_reply_reachable.
  - reflexivity.
  - apply list_elem_of_further, list_elem_of_here.
Defined.


(** ** Payloads that are not what the listeners expect *)

(** C2, as stated, fails: event data that is the JSON text [null], or no
    JSON text at all, makes the log listener throw, and no line is logged. *)
Lemma malformed_payload_throws :
  listener Log (Json VNull) awaiting_reply = Throw TypeError
  /\ listener Log NotJson awaiting_reply = Throw SyntaxError
  /\ logText (step (Message 0 Log (Json VNull)) awaiting_reply) = logText awaiting_reply
  /\ ~ (exists s', listener Log (Json VNull) awaiting_reply = Ok s').
Proof.
  split; [|split; [|split]].
  - vm_compute. reflexivity.
  - vm_compute. reflexivity.
  - vm_compute. reflexivity.
  - intros [s' H]. vm_compute in H. discriminate H.
Qed.

Lemma event_data_defaults v :
  v <> VNull -> v <> VUndefined -> truthy (field v "data") = false ->
  event_data (Json v) = Ok (VObj []).
Proof.
  intros Hn Hu Hf. unfold event_data. simpl.
  destruct v; try contradiction; simpl in *; try reflexivity.
  unfold or. rewrite Hf. reflexivity.
Qed.

Lemma event_data_payload v :
  v <> VNull -> v <> VUndefined ->
  event_data (Json v) = Ok (or (field v "data") (VObj [])).
Proof.
  intros Hn Hu. unfold event_data. simpl.
  destruct v; try contradiction; reflexivity.
Qed.

Lemma log_line_empty lang : log_line lang (VObj []) = Ok "[]".
Proof.
  assert (H : forall k, ToString (VStr "") = Ok k -> k = "") by (intros k [= <-]; reflexivity).
  unfold log_line, log_message, log_parts, actionLabel.
  change (field (VObj []) _) with VUndefined. cbn [or truthy].
  unfold or. cbn [truthy nonempty String.eqb negb ToString]. bind_step.
  change (action_map !! "") with (@None string).
  change (lookup (VStr <$> None) "") with (inherited "").
  change (inherited "") with VUndefined. cbn [truthy]. cbv iota. bind_step.
  reflexivity.
Qed.

Lemma listener_data k d d' s :
  event_data d = event_data d' -> listener k d s = listener k d' s.
Proof.
  intros H. destruct k; simpl;
    unfold_listeners;
    rewrite H; reflexivity.
Qed.

(** A listener returns when every field it prints has a text. *)
Lemma listener_convertible k d s data :
  event_data d = Ok data ->
  Forall (fun f => convertible (field data f) = true) (printed k) ->
  exists s', listener k d s = Ok s'.
Proof.
  intros Hd Hf. destruct k; cbn [listener]; unfold_listeners; rewrite Hd; bind_step.
  - destruct (log_line_convertible (currentLang s) data Hf) as [line ->]. eauto.
  - cbn [printed] in Hf. inversion Hf as [|? ? H _]. subst.
    assert (Hc : convertible (or (field data "summary") (VStr "")) = true)
      by (apply or_convertible; [exact H | reflexivity]).
    apply convertible_ok in Hc as [u ->]. eauto.
  - cbn [printed] in Hf. inversion Hf as [|? ? H _]. subst.
    assert (Hc : convertible (or (field data "question") (VStr "")) = true)
      by (apply or_convertible; [exact H | reflexivity]).
    apply convertible_ok in Hc as [u ->]. eauto.
  - cbn [printed] in Hf. inversion Hf as [|? ? H _]. subst.
    assert (Hc : convertible (or (field data "result") (VStr "")) = true)
      by (apply or_convertible; [exact H | reflexivity]).
    apply convertible_ok in Hc as [u ->]. eauto.
  - cbn [printed] in Hf. inversion Hf as [|? ? H _]. subst.
    assert (Hc : convertible (or (field data "status") (VStr "")) = true)
      by (apply or_convertible; [exact H | reflexivity]).
    destruct (statusLabel_convertible (currentLang s) _ Hc) as (label & -> & Hl).
    apply convertible_ok in Hl as [shown ->]. cbv zeta.
    destruct (is_terminal _); eauto.
Qed.

(** It throws when one of them has none. *)
Lemma listener_throw k d s data f :
  event_data d = Ok data ->
  f ∈ printed k -> convertible (field data f) = false ->
  exists e, listener k d s = Throw e.
Proof.
  intros Hd Hin Hf. destruct k; cbn [listener]; unfold_listeners; rewrite Hd; bind_step.
  - destruct (log_line_throw (currentLang s) data f Hin Hf) as [e ->]. eauto.
  - cbn [printed] in Hin. apply list_elem_of_singleton in Hin as ->.
    rewrite (or_unconvertible _ _ Hf).
    apply convertible_throw in Hf as [e ->]. eauto.
  - cbn [printed] in Hin. apply list_elem_of_singleton in Hin as ->.
    rewrite (or_unconvertible _ _ Hf).
    apply convertible_throw in Hf as [e ->]. eauto.
  - cbn [printed] in Hin. apply list_elem_of_singleton in Hin as ->.
    rewrite (or_unconvertible _ _ Hf).
    apply convertible_throw in Hf as [e ->]. eauto.
  - cbn [printed] in Hin. apply list_elem_of_singleton in Hin as ->.
    rewrite (or_unconvertible _ _ Hf).
    destruct (statusLabel_throw (currentLang s) _ Hf) as [e ->]. eauto.
Qed.

(** C2, amended. Event data that is not JSON text, or is the text [null],
    makes the listener of any kind throw before it has changed anything,
    and so does a field to be printed that has no text (an object with a
    [toString] entry of its own, or an array that holds one). Otherwise
    the listener does not throw. A payload without a [data] field (or with
    one that counts as false) is handled as the payload with an empty
    [data] object is, every field absent: the fragments are blank and the
    log listener appends the line [[]]. *)
Theorem payload_defaults (k : event_kind) (v : value) (s : State) :
  v <> VNull -> v <> VUndefined ->
  let data := or (field v "data") (VObj []) in
  (Forall (fun f => convertible (field data f) = true) (printed k) ->
     exists s', listener k (Json v) s = Ok s')
  /\ (forall f, f ∈ printed k -> convertible (field data f) = false ->
        (exists e, listener k (Json v) s = Throw e)
        /\ step (Message 0 k (Json v)) s = s)
  /\ (truthy (field v "data") = false ->
        listener k (Json v) s = listener k (envelope []) s
        /\ (exists s', listener k (Json v) s = Ok s')
        /\ on_log (Json v) s = Ok (appendLog "[]" s))
  /\ listener k NotJson s = Throw SyntaxError
  /\ listener k (Json VNull) s = Throw TypeError.
Proof.
  intros Hn Hu data.
  pose proof (event_data_payload v Hn Hu) as Hd. fold data in Hd.
  split; [|split; [|split; [|split]]].
  - exact (listener_convertible k _ s data Hd).
  - intros f Hin Hf.
    destruct (listener_throw k _ s data f Hd Hin Hf) as [e He].
    split; [eauto|]. cbn [step]. rewrite He. destruct (is_open 0 s); reflexivity.
  - intros Hf. pose proof (event_data_defaults v Hn Hu Hf) as Hd0.
    split; [|split].
    + apply listener_data. rewrite Hd0. reflexivity.
    + apply (listener_convertible k _ s (VObj []) Hd0).
      apply Forall_forall. intros f _. reflexivity.
    + unfold on_log. rewrite Hd0. bind_step. rewrite log_line_empty. reflexivity.
  - destruct k; reflexivity.
  - destruct k; reflexivity.
Qed.

Lemma payload_defaults_witness :
  (exists s', listener Log (Json (VObj [("note", VNum (integer 7))])) awaiting_reply = Ok s')
  /\ on_log (Json (VObj [("note", VNum (integer 7))])) awaiting_reply
     = Ok (appendLog "[]" awaiting_reply)
  /\ (exists e, listener Result (envelope [("result", untexted)]) awaiting_reply = Throw e)
  /\ exists s', listener Status (envelope [("status", VNum (integer 3))]) awaiting_reply = Ok s'.
Proof.
  split; [|split; [|split]].
  - destruct (payload_defaults Log (VObj [("note", VNum (integer 7))]) awaiting_reply)
      as (_ & _ & Hblank & _); [discriminate | discriminate |].
    apply Hblank. reflexivity.
  - destruct (payload_defaults Log (VObj [("note", VNum (integer 7))]) awaiting_reply)
      as (_ & _ & Hblank & _); [discriminate | discriminate |].
    apply Hblank. reflexivity.
  - destruct (payload_defaults Result (VObj [("data", VObj [("result", untexted)])])
                awaiting_reply)
      as (_ & Hthrow & _); [discriminate | discriminate |].
    apply (Hthrow "result"); [apply list_elem_of_here | reflexivity].
  - destruct (payload_defaults Status
                (VObj [("data", VObj [("status", VNum (integer 3))])]) awaiting_reply)
      as (Hok & _); [discriminate | discriminate |].
    apply Hok. repeat constructor.
Defined.

(** ** A successful start *)

(** C3, as stated, fails: the success branch does not touch the status
    line, which still reads "starting" once the stream is open. *)
Lemma start_success_leaves_status_starting :
  statusText started = t (currentLang started) "status_starting"
  /\ statusText started <> running_status (currentLang started)
  /\ statusText (step (Message 0 Status (envelope [("status", VStr "running")])) started)
     = running_status (currentLang started)
  /\ taskId started = VStr "t1"
  /\ stopDisabled started = false.
Proof.
  split; [|split; [|split; [|split]]].
  - vm_compute. reflexivity.
  - vm_compute. discriminate.
  - vm_compute. reflexivity.
  - vm_compute. reflexivity.
  - vm_compute. reflexivity.
Qed.

(** C3, amended. On a success response of the task-creation request whose
    body gives an identifier, the run handler stores the identifier,
    enables stop and leaves the status line as it is (the starting label;
    running is shown only when a status event reports it). It closes the
    current subscription and, the identifier having a text (a string, as
    the backend sends it), constructs exactly one subscription, for the
    address of that identifier, which is then the only open one. For an
    identifier without a text the handler throws at the address: the
    identifier is stored and stop enabled, and no subscription is open. *)
Theorem start_success_single_subscription (s : State) (r : response) (id : value) :
  reachable s ->
  resp_ok r = true -> created_id r = Ok id ->
  (forall u, ToString id = Ok u ->
     exists s',
       run_response r s = Returned s'
       /\ taskId s' = id
       /\ stopDisabled s' = false
       /\ statusText s' = statusText s
       /\ length (sources s') = S (length (sources s))
       /\ eventSource s' = Some (length (sources s))
       /\ sources s' !! length (sources s)
          = Some {| es_url := events_url u; es_closed := false |}
       /\ open_sources s' = [{| es_url := events_url u; es_closed := false |}])
  /\ (forall e, ToString id = Throw e ->
        exists s',
          run_response r s = Thrown e s'
          /\ taskId s' = id
          /\ stopDisabled s' = false
          /\ statusText s' = statusText s
          /\ length (sources s') = length (sources s)
          /\ open_sources s' = []).
Proof.
  intros Hr Hok Hid.
  rewrite (run_response_created r s id Hok Hid).
  set (s1 := with_stopDisabled false (with_taskId id s)).
  assert (Hinv : single_active s1).
  { exact (single_active_frame s s1 eq_refl eq_refl (reachable_single_active _ Hr)). }
  split.
  - intros u Hu.
    destruct (connectEvents_returned id u s1 Hu)
      as (s' & Hc & Hsrc & Hcur & Ht & Hst & Htext & _).
    exists s'. split; [exact Hc|]. split; [exact Ht|]. split; [exact Hst|].
    split; [exact Htext|].
    assert (Hlen : length (sources (close_current s1)) = length (sources s))
      by exact (close_current_length s1).
    split; [rewrite Hsrc, length_app, Hlen; simpl; lia|].
    split; [exact Hcur|]. split.
    + rewrite Hsrc, lookup_app_r by lia. rewrite Hlen, Nat.sub_diag. reflexivity.
    + exact (opened_open_sources s1 s'
               {| es_url := events_url u; es_closed := false |} Hinv eq_refl Hsrc).
  - intros e He. rewrite (connectEvents_thrown id e s1 He).
    exists (close_current s1). split; [reflexivity|].
    destruct (close_current_fields s1) as (_ & Ht & _ & Hst & _).
    destruct (close_current_rest s1) as (Htext & _).
    split; [exact Ht|]. split; [exact Hst|]. split; [exact Htext|].
    split; [exact (close_current_length s1)|].
    apply open_sources_nil. intros i. apply close_current_all_closed, Hinv.
Qed.

Lemma started_reachable : reachable started.
Proof. exists ∅, started_script. reflexivity. Qed.

Lemma start_success_single_subscription_witness :
  open_sources started
  = [{| es_url := "http://localhost:8080/tasks/t1/events"; es_closed := false |}]
  /\ (exists s',
        run_response (created "t2") started = Returned s'
        /\ taskId s' = VStr "t2"
        /\ length (sources s') = 2
        /\ open_sources s'
           = [{| es_url := "http://localhost:8080/tasks/t2/events"; es_closed := false |}])
  /\ exists s',
       run_response created_untexted started = Thrown TypeError s'
       /\ taskId s' = untexted
       /\ open_sources s' = [].
Proof.
  split; [vm_compute; reflexivity|].
  split.
  - destruct (start_success_single_subscription started (created "t2") (VStr "t2")
                started_reachable eq_refl eq_refl) as [Hopen _].
    destruct (Hopen "t2" eq_refl) as (s' & Hrun & Hid & _ & _ & Hlen & _ & _ & Hone).
    exists s'. split; [exact Hrun|]. split; [exact Hid|]. split; [|exact Hone].
    rewrite Hlen. vm_compute. reflexivity.
  - destruct (start_success_single_subscription started created_untexted untexted
                started_reachable eq_refl eq_refl) as [_ Hthrow].
    destruct (Hthrow TypeError eq_refl) as (s' & Hrun & Hid & _ & _ & _ & Hnone).
    exists s'. split; [exact Hrun|]. split; [exact Hid | exact Hnone].
Defined.

(** ** Confirming *)

(** C5, as stated, fails: a reply of blanks is not the empty text, yet with
    the awaiting-reply flag set the confirm handler sends nothing for it;
    and the reply that is sent is the trimmed one. *)
Lemma blank_reply_not_sent :
  waitingForUserInput awaiting_reply = true
  /\ replyValue (step (TypeReply "  ") awaiting_reply) <> ""
  /\ requests (run [TypeReply "  "; ConfirmClick] awaiting_reply)
     = requests awaiting_reply
  /\ requests (run [TypeReply " ru "; ConfirmClick] awaiting_reply)
     = (requests awaiting_reply ++ [confirm_request (VStr "t1") "ru"])%list.
Proof.
  split; [|split; [|split]].
  - vm_compute. reflexivity.
  - vm_compute. discriminate.
  - vm_compute. reflexivity.
  - vm_compute. reflexivity.
Qed.

Lemma nonempty_false s : nonempty s = false <-> s = "".
Proof.
  unfold nonempty. destruct (String.eqb_spec s ""); simpl; split; congruence.
Qed.

Lemma nonempty_true s : nonempty s = true <-> s <> "".
Proof.
  unfold nonempty. destruct (String.eqb_spec s ""); simpl; split; congruence.
Qed.

Lemma confirm_click_missing_reply s :
  truthy (taskId s) = true -> waitingForUserInput s = true ->
  trim (replyValue s) = "" ->
  confirm_click s
  = with_confirmDisabled false
      (appendLog (t (currentLang s) "alert_enter_reply")
         (setStatus "Continuing..." (with_confirmDisabled true s))).
Proof.
  intros Hid Hw Hr. unfold confirm_click. rewrite Hid. simpl.
  rewrite Hw, Hr. reflexivity.
Qed.

Lemma confirm_click_reply s :
  truthy (taskId s) = true -> waitingForUserInput s = true ->
  trim (replyValue s) <> "" ->
  confirm_click s
  = fetch (confirm_request (taskId s) (trim (replyValue s)))
      (with_replyValue ""
         (setStatus "Continuing..." (with_confirmDisabled true s))).
Proof.
  intros Hid Hw Hr. unfold confirm_click. rewrite Hid. simpl.
  rewrite Hw. apply nonempty_true in Hr. rewrite Hr. reflexivity.
Qed.

Lemma on_needs_user_input_fields d s s' :
  on_needs_user_input d s = Ok s' ->
  waitingForUserInput s' = true /\ replyHidden s' = false
  /\ taskId s' = taskId s /\ requests s' = requests s
  /\ currentLang s' = currentLang s.
Proof.
  unfold on_needs_user_input. destruct (event_data d); bind_step; [|discriminate].
  destruct (ToString _); [|discriminate].
  intros [= <-]. repeat split.
Qed.

(** C5, amended. After a needs_user_input event, with a task identifier
    stored, the awaiting-reply flag is set and the confirm handler goes by
    the trimmed reply. If that is empty it sends no request, logs the
    message, enables confirm again and leaves the reply field as typed. If
    it is not empty it sends exactly one confirm request, whose body is
    [{response: <trimmed reply>}], and clears the reply field. *)
Theorem confirm_reply_gate (s0 s1 : State) (d : text) (x : string) :
  truthy (taskId s0) = true ->
  on_needs_user_input d s0 = Ok s1 ->
  let s := step (TypeReply x) s1 in
  waitingForUserInput s = true
  /\ (trim x = "" ->
        requests (confirm_click s) = requests s
        /\ logText (confirm_click s)
           = logText s +:+ t (currentLang s) "alert_enter_reply" +:+ nl
        /\ confirmDisabled (confirm_click s) = false
        /\ replyValue (confirm_click s) = x)
  /\ (trim x <> "" ->
        requests (confirm_click s)
        = (requests s ++ [confirm_request (taskId s) (trim x)])%list
        /\ replyValue (confirm_click s) = ""
        /\ confirmDisabled (confirm_click s) = true).
Proof.
  intros Hid Hev s.
  destruct (on_needs_user_input_fields d s0 s1 Hev) as (Hw & _ & Hid1 & _).
  assert (Hws : waitingForUserInput s = true) by exact Hw.
  assert (Hids : truthy (taskId s) = true).
  { change (taskId s) with (taskId s1). rewrite Hid1. exact Hid. }
  split; [exact Hws|]. split; intros Hx.
  - rewrite (confirm_click_missing_reply s Hids Hws Hx). repeat split.
  - rewrite (confirm_click_reply s Hids Hws Hx). repeat split.
Qed.

Lemma confirm_reply_gate_witness :
  requests (confirm_click (step (TypeReply "Russian") awaiting_reply))
  = (requests (step (TypeReply "Russian") awaiting_reply)
     ++ [confirm_request (VStr "t1") "Russian"])%list
  /\ replyValue (confirm_click (step (TypeReply "Russian") awaiting_reply)) = "".
Proof.
  destruct (confirm_reply_gate started awaiting_reply
              (envelope [("question", VStr "Which language?")]) "Russian")
    as (_ & _ & Hsend).
  - vm_compute. reflexivity.
  - vm_compute. reflexivity.
  - destruct Hsend as (Hreq & Hval & _).
    + vm_compute. discriminate.
    + split; [|exact Hval]. rewrite Hreq. vm_compute. reflexivity.
Defined.


(** ** Trimming *)











(** ** The log line *)









(** ** Per-provider model choice *)

Lemma model_key_inj p q : model_key p = model_key q -> p = q.
Proof. unfold model_key. intros H. injection H. auto. Qed.

Lemma model_key_not_legacy p : model_key p <> "llm_model".
Proof. unfold model_key. discriminate. Qed.

Lemma model_key_not_provider p : model_key p <> "llm_provider".
Proof. unfold model_key. discriminate. Qed.

Lemma setItem_lookup k v s k' :
  localStorage (setItem k v s) !! k'
  = if decide (k = k') then Some v else localStorage s !! k'.
Proof. unfold setItem. simpl. apply lookup_insert. Qed.

Lemma select_value_elem choices v : v ∈ choices -> select_value choices v = v.
Proof. intros H. unfold select_value. rewrite bool_decide_eq_true_2; auto. Qed.

(** What the provider listener leaves behind. *)
Lemma on_provider_change_storage s k :
  localStorage (on_provider_change s) !! k
  = if decide ("llm_provider" = k) then Some (providerValue s)
    else localStorage s !! k.
Proof.
  unfold on_provider_change. cbv zeta.
  destruct (getItem _ _) as [m|]; [destruct (nonempty m)|];
    exact (setItem_lookup _ _ s k).
Qed.

Lemma on_provider_change_provider s :
  providerValue (on_provider_change s) = providerValue s.
Proof.
  unfold on_provider_change. cbv zeta.
  destruct (getItem _ _) as [m|]; [destruct (nonempty m)|]; reflexivity.
Qed.

Lemma on_provider_change_choices s options :
  MODEL_OPTIONS !! providerValue s = Some options -> options <> [] ->
  modelChoices (on_provider_change s) = options.
Proof.
  intros Ho Hne. unfold on_provider_change. cbv zeta.
  assert (Hc : modelChoices (setModelOptions (providerValue s)
                               (setItem "llm_provider" (providerValue s) s)) = options).
  { unfold setModelOptions. cbv zeta. rewrite Ho.
    destruct options; [contradiction | reflexivity]. }
  destruct (getItem _ _) as [m|]; [destruct (nonempty m)|]; exact Hc.
Qed.

Lemma on_provider_change_restores s options m :
  MODEL_OPTIONS !! providerValue s = Some options ->
  localStorage s !! model_key (providerValue s) = Some m ->
  m ∈ options ->
  modelValue (on_provider_change s) = m.
Proof.
  intros Ho Hm Hin.
  assert (Hne : nonempty m = true).
  { exact (proj1 (Forall_forall _ _)
             (map_Forall_lookup_1 _ _ _ _ MODEL_OPTIONS_nonempty Ho) m Hin). }
  assert (Hopt : options <> []) by (intros ->; inversion Hin).
  unfold on_provider_change. cbv zeta.
  assert (Hget : getItem (model_key (providerValue s))
                   (setModelOptions (providerValue s)
                      (setItem "llm_provider" (providerValue s) s)) = Some m).
  { unfold getItem, setModelOptions. cbv zeta.
    change (localStorage (setItem "llm_provider" (providerValue s) s)
              !! model_key (providerValue s) = Some m).
    rewrite setItem_lookup. rewrite decide_False; [exact Hm|].
    intros H. symmetry in H. exact (model_key_not_provider _ H). }
  rewrite Hget, Hne.
  change (select_value
            (modelChoices (setModelOptions (providerValue s)
                             (setItem "llm_provider" (providerValue s) s))) m = m).
  apply select_value_elem.
  unfold setModelOptions. cbv zeta. rewrite Ho.
  destruct options; [contradiction | exact Hin].
Qed.

Lemma listener_storage k d s s' :
  listener k d s = Ok s' -> localStorage s' = localStorage s.
Proof.
  intros Hl.
  destruct (listener_returns k d s s' Hl)
    as (data & s0 & _ & Hs' & _ & _ & _ & Hstore & _).
  destruct Hs' as [(-> & _)|(_ & _ & -> & _)]; [exact Hstore|].
  rewrite (proj1 (proj2 (proj2 (proj2 (close_current_rest s0))))). exact Hstore.
Qed.

Lemma run_response_storage r s :
  localStorage (state_after (run_response r s)) = localStorage s.
Proof.
  destruct (run_response_cases r s) as [(id & _ & ->)|[(s' & -> & H)|(e & ->)]].
  - set (s1 := with_stopDisabled false (with_taskId id s)).
    change (localStorage s) with (localStorage s1).
    destruct (ToString id) as [u|e] eqn:Hid.
    + destruct (connectEvents_returned id u s1 Hid) as (s' & -> & H). apply H.
    + rewrite (connectEvents_thrown id e s1 Hid). apply close_current_rest.
  - apply H.
  - reflexivity.
Qed.

(** No step writes the unscoped key. *)
Lemma step_legacy_key a s :
  localStorage (step a s) !! "llm_model" = localStorage s !! "llm_model".
Proof.
  destruct a; cbn [step]; try reflexivity.
  - rewrite (proj1 (proj2 (proj2 (proj2 (run_click_frame s))))). reflexivity.
  - rewrite run_response_storage. reflexivity.
  - rewrite (proj1 (proj2 (proj2 (proj2 (confirm_click_frame s))))). reflexivity.
  - rewrite (proj1 (proj2 (proj2 (proj2 (stop_click_frame s))))). reflexivity.
  - destruct (is_open i s); [|reflexivity].
    destruct (listener k d s) as [s'|e] eqn:Hl; [|reflexivity].
    simpl. rewrite (listener_storage _ _ _ _ Hl). reflexivity.
  - destruct (is_open i s); reflexivity.
  - case_bool_decide; [|reflexivity]. unfold on_search_change.
    rewrite setItem_lookup, decide_False by discriminate. reflexivity.
  - case_bool_decide; [|reflexivity].
    rewrite on_provider_change_storage, decide_False by discriminate. reflexivity.
  - case_bool_decide; [|reflexivity]. unfold on_model_change.
    rewrite setItem_lookup, decide_False by apply model_key_not_legacy. reflexivity.
  - unfold on_safe_change.
    rewrite setItem_lookup, decide_False by discriminate. reflexivity.
  - unfold on_browser_only_change.
    rewrite setItem_lookup, decide_False by discriminate. reflexivity.
  - unfold on_theme_click, applyTheme. cbv zeta.
    rewrite setItem_lookup, decide_False by discriminate. reflexivity.
  - unfold on_lang_toggle, applyLanguage. cbv zeta.
    change (localStorage (setItem "ui_lang"
              (if String.eqb (currentLang s) "ru" then "en" else "ru")
              (with_currentLang
                 (if String.eqb (currentLang s) "ru" then "en" else "ru") s))
            !! "llm_model" = localStorage s !! "llm_model").
    rewrite setItem_lookup, decide_False by discriminate. reflexivity.
Qed.

Lemma resetUI_modelValue s : modelValue (resetUI s) = modelValue s.
Proof. reflexivity. Qed.

Lemma getItem_or_some k d s v :
  localStorage s !! k = Some v -> nonempty v = true -> getItem_or k d s = v.
Proof.
  intros H Hv. unfold getItem_or, getItem. rewrite H.
  unfold present. rewrite Hv. reflexivity.
Qed.

Lemma getItem_or_none k d s :
  localStorage s !! k = None -> getItem_or k d s = d.
Proof. intros H. unfold getItem_or, getItem. rewrite H. reflexivity. Qed.

Lemma provider_choices_nonempty p : p ∈ provider_choices -> nonempty p = true.
Proof.
  unfold provider_choices. rewrite !elem_of_cons, elem_of_nil.
  intros [->|[->|[->|[->|[]]]]]; reflexivity.
Qed.

(** The model shown after [loadSettings], by what the storage holds for the
    stored provider [p]: [scoped] under its own key, [legacy] under the
    unscoped key. *)
Lemma loadSettings_model store p options scoped legacy :
  store !! "llm_provider" = Some p -> p ∈ provider_choices ->
  MODEL_OPTIONS !! p = Some options -> options <> [] ->
  store !! model_key p = scoped -> store !! "llm_model" = legacy ->
  modelValue (init store)
  = if present scoped then select_value options (default "" scoped)
    else if present legacy then select_value options (default "" legacy)
    else List.hd "" options.
Proof.
  intros Hp Hpc Ho Hne Hscoped Hlegacy. unfold init. rewrite resetUI_modelValue.
  unfold loadSettings. cbv zeta.
  match goal with |- context [applyLanguage ?a ?b] => set (sA := applyLanguage a b) end.
  match goal with |- context [applyTheme ?a ?b] => set (sB := applyTheme a b) end.
  match goal with |- context [with_searchValue ?a ?b] => set (sC := with_searchValue a b) end.
  assert (Hst : forall k, k <> "ui_lang" -> k <> "ui_theme" ->
                  localStorage sC !! k = store !! k).
  { intros k Hk1 Hk2.
    change (localStorage sC) with (localStorage sB).
    unfold sB, applyTheme. cbv zeta. rewrite setItem_lookup, decide_False by congruence.
    match goal with |- localStorage (with_theme ?a ?b) !! _ = _ =>
      change (localStorage (with_theme a b)) with (localStorage sA) end.
    unfold sA, applyLanguage. cbv zeta.
    match goal with |- localStorage (setStatus ?a (setItem ?k' ?v ?b)) !! _ = _ =>
      change (localStorage (setStatus a (setItem k' v b)))
        with (localStorage (setItem k' v b)) end.
    rewrite setItem_lookup, decide_False by congruence. reflexivity. }
  assert (HP : getItem_or "llm_provider" "openai" sC = p).
  { apply getItem_or_some; [|apply provider_choices_nonempty, Hpc].
    rewrite Hst by discriminate. exact Hp. }
  rewrite HP.
  match goal with |- context [setModelOptions p ?b] => set (sD := setModelOptions p b) end.
  assert (Hchoices : modelChoices sD = options).
  { unfold sD, setModelOptions. cbv zeta. rewrite Ho.
    destruct options; [contradiction | reflexivity]. }
  assert (Hhead : modelValue sD = List.hd "" options).
  { unfold sD, setModelOptions. cbv zeta. rewrite Ho.
    destruct options; [contradiction | reflexivity]. }
  assert (HsD : forall k d, getItem_or k d sD = getItem_or k d sC) by reflexivity.
  assert (Hs : getItem_or (model_key p) "" sD
               = if present scoped then default "" scoped else "").
  { rewrite HsD. unfold getItem_or, getItem.
    rewrite Hst by (unfold model_key; discriminate). rewrite Hscoped.
    destruct (present scoped); reflexivity. }
  assert (Hl : getItem_or "llm_model" "" sD
               = if present legacy then default "" legacy else "").
  { rewrite HsD. unfold getItem_or, getItem.
    rewrite Hst by discriminate. rewrite Hlegacy.
    destruct (present legacy); reflexivity. }
  rewrite Hs, Hl, Hchoices.
  assert (Hpres : forall o : option string,
             nonempty (if present o then default "" o else "") = present o).
  { intros [x|]; [|reflexivity]. simpl. destruct (nonempty x) eqn:E; [exact E|reflexivity]. }
  rewrite !Hpres.
  destruct (present scoped); [|destruct (present legacy)];
    cbn [orb]; split_cases; first [reflexivity | exact Hhead].
Qed.

(** C9. Picking a model writes it under the key of the selected provider
    and under no other key; no step of the page writes the unscoped key,
    which is only read, when the settings are loaded and the stored
    provider has no key of its own. So after a model is picked under a
    provider, going to another provider and back shows that model again,
    and the stored choice of every other provider is what it was. *)
Theorem model_choice_per_provider :
  (forall s m k,
      m ∈ modelChoices s ->
      localStorage (step (PickModel m) s) !! k
      = if decide (k = model_key (providerValue s)) then Some m
        else localStorage s !! k)
  /\ (forall a s,
        localStorage (step a s) !! "llm_model" = localStorage s !! "llm_model")
  /\ (forall store p options m,
        store !! "llm_provider" = Some p -> p ∈ provider_choices ->
        MODEL_OPTIONS !! p = Some options -> m ∈ options ->
        (store !! model_key p = Some m -> modelValue (init store) = m)
        /\ (store !! model_key p = None -> store !! "llm_model" = Some m ->
            modelValue (init store) = m))
  /\ (forall s p q options m,
        p ∈ provider_choices -> q ∈ provider_choices -> p <> q ->
        MODEL_OPTIONS !! p = Some options -> m ∈ options ->
        let s1 := run [PickProvider p; PickModel m] s in
        let s2 := run [PickProvider q; PickProvider p] s1 in
        modelValue s2 = m
        /\ providerValue s2 = p
        /\ localStorage s2 !! model_key p = Some m
        /\ forall r, r <> p ->
             localStorage s2 !! model_key r = localStorage s !! model_key r).
Proof.
  split; [|split; [exact step_legacy_key|split]].
  - intros s m k Hin. cbn [step]. rewrite bool_decide_eq_true_2 by exact Hin.
    unfold on_model_change. rewrite setItem_lookup.
    change (providerValue (with_modelValue m s)) with (providerValue s).
    change (modelValue (with_modelValue m s)) with m.
    change (localStorage (with_modelValue m s)) with (localStorage s).
    destruct (decide (model_key (providerValue s) = k)) as [<-|Hne].
    + rewrite decide_True by reflexivity. reflexivity.
    + rewrite decide_False by congruence. reflexivity.
  - intros store p options m Hp Hpc Ho Hin.
    assert (Hopt : options <> []) by (intros ->; inversion Hin).
    assert (Hm : present (Some m) = true).
    { exact (proj1 (Forall_forall _ _)
               (map_Forall_lookup_1 _ _ _ _ MODEL_OPTIONS_nonempty Ho) m Hin). }
    split.
    + intros Hs.
      rewrite (loadSettings_model store p options (Some m) (store !! "llm_model")
                 Hp Hpc Ho Hopt Hs eq_refl).
      rewrite Hm. apply select_value_elem, Hin.
    + intros Hs Hl.
      rewrite (loadSettings_model store p options None (Some m)
                 Hp Hpc Ho Hopt Hs Hl).
      change (present None) with false. cbv iota. rewrite Hm.
      apply select_value_elem, Hin.
  - intros s p q options m Hp Hq Hpq Ho Hin s1 s2.
    assert (Hopt : options <> []) by (intros ->; inversion Hin).
    (* the provider is picked *)
    set (sa := on_provider_change (with_providerValue p s)).
    assert (Hsa_p : providerValue sa = p) by apply on_provider_change_provider.
    assert (Hsa_c : modelChoices sa = options).
    { apply on_provider_change_choices; [exact Ho | exact Hopt]. }
    (* the model is picked *)
    set (sb := on_model_change (with_modelValue m sa)).
    assert (Hs1 : s1 = sb).
    { unfold s1, run. cbn [List.fold_left step].
      rewrite (bool_decide_eq_true_2 (p ∈ provider_choices)) by exact Hp.
      fold sa. rewrite bool_decide_eq_true_2 by (rewrite Hsa_c; exact Hin).
      reflexivity. }
    assert (Hsb_store : forall k, localStorage sb !! k
              = if decide (model_key p = k) then Some m
                else if decide ("llm_provider" = k) then Some p
                else localStorage s !! k).
    { intros k. unfold sb, on_model_change. rewrite setItem_lookup.
      change (providerValue (with_modelValue m sa)) with (providerValue sa).
      change (modelValue (with_modelValue m sa)) with m.
      rewrite Hsa_p. destruct (decide (model_key p = k)); [reflexivity|].
      change (localStorage (with_modelValue m sa)) with (localStorage sa).
      unfold sa. rewrite on_provider_change_storage. reflexivity. }
    (* away and back *)
    set (sc := on_provider_change (with_providerValue q sb)).
    set (sd := on_provider_change (with_providerValue p sc)).
    assert (Hs2 : s2 = sd).
    { unfold s2, run. rewrite Hs1. cbn [List.fold_left step].
      rewrite (bool_decide_eq_true_2 (q ∈ provider_choices)) by exact Hq. fold sc.
      rewrite (bool_decide_eq_true_2 (p ∈ provider_choices)) by exact Hp.
      reflexivity. }
    assert (Hsc_store : forall k, k <> "llm_provider" ->
              localStorage sc !! k = localStorage sb !! k).
    { intros k Hk. unfold sc. rewrite on_provider_change_storage.
      rewrite decide_False by congruence. reflexivity. }
    assert (Hsd_store : forall k, k <> "llm_provider" ->
              localStorage sd !! k = localStorage sb !! k).
    { intros k Hk. unfold sd. rewrite on_provider_change_storage.
      rewrite decide_False by congruence.
      change (localStorage (with_providerValue p sc)) with (localStorage sc).
      apply Hsc_store, Hk. }
    rewrite Hs2. split; [|split; [|split]].
    + unfold sd. apply (on_provider_change_restores _ options).
      * exact Ho.
      * change (localStorage sc !! model_key p = Some m).
        rewrite Hsc_store by apply model_key_not_provider.
        rewrite Hsb_store, decide_True by reflexivity. reflexivity.
      * exact Hin.
    + unfold sd. apply on_provider_change_provider.
    + rewrite Hsd_store by apply model_key_not_provider.
      rewrite Hsb_store, decide_True by reflexivity. reflexivity.
    + intros r Hr. rewrite Hsd_store by apply model_key_not_provider.
      rewrite Hsb_store.
      rewrite decide_False by (intros H; apply model_key_inj in H; congruence).
      rewrite decide_False; [reflexivity|].
      intros H. symmetry in H. exact (model_key_not_provider _ H).
Qed.

Lemma model_choice_per_provider_witness :
  modelValue away_and_back = "gpt-4.1-mini"
  /\ localStorage away_and_back !! model_key "anthropic" = None.
Proof.
  destruct model_choice_per_provider as (_ & _ & _ & Hback).
  destruct (Hback (init ∅) "openai" "anthropic"
              ["gpt-4.1-nano"; "gpt-4.1-mini"; "gpt-4.1"] "gpt-4.1-mini")
    as (Hm & _ & _ & Hothers).
  - apply (bool_decide_unpack _). vm_compute. exact I.
  - apply (bool_decide_unpack _). vm_compute. exact I.
  - discriminate.
  - vm_compute. reflexivity.
  - apply (bool_decide_unpack _). vm_compute. exact I.
  - unfold away_and_back, picked. split.
    + exact Hm.
    + rewrite Hothers by discriminate. vm_compute. reflexivity.
Defined.


(** ** A rejected start beside an open stream *)

Lemma run_click_accepted s :
  trim (promptValue s) <> "" ->
  logText (run_click s) = ""
  /\ currentLang (run_click s) = currentLang s
  /\ runDisabled (run_click s) = true
  /\ statusText (run_click s) = t (currentLang s) "status_starting".
Proof.
  intros H. apply nonempty_true in H. unfold run_click. rewrite H.
  repeat split.
Qed.




(** ** The page under its own guards *)

Lemma on_page_reachable n s : on_page n s -> reachable s.
Proof.
  induction 1 as [store|n s r _ IH|n s a _ IH _ _].
  - exists store, []. reflexivity.
  - apply reachable_step, IH.
  - apply reachable_step, IH.
Qed.

Lemma listener_run_button k d s s' i :
  single_active s -> listener k d s = Ok s' ->
  (sources s' = sources s /\ runDisabled s' = runDisabled s)
  \/ is_open i s' = false.
Proof.
  intros Hinv Hl.
  destruct (listener_returns k d s s' Hl)
    as (data & s0 & _ & Hs' & Hsrc & Hcur & _).
  destruct Hs' as [(-> & Hrun & _)|(_ & _ & -> & _)].
  - left. split; assumption.
  - right. apply close_current_all_closed.
    exact (single_active_frame _ _ Hsrc Hcur Hinv).
Qed.

(** Steps that touch neither the subscriptions nor the run button. *)
Lemma step_run_button a s :
  (forall r, a <> RunResponse r) -> a <> RunClick ->
  (forall i k d, a <> Message i k d) ->
  sources (step a s) = sources s /\ runDisabled (step a s) = runDisabled s.
Proof.
  intros Hr Hc Hm. destruct a; cbn [step];
    try (split; reflexivity);
    try (case_bool_decide; split; reflexivity).
  - contradiction.
  - destruct (Hr r eq_refl).
  - destruct (confirm_click_frame s) as (H1 & _ & _ & _ & _ & H2). split; assumption.
  - destruct (stop_click_frame s) as (H1 & _ & _ & _ & _ & H2 & _). split; assumption.
  - destruct (Hm i k d eq_refl).
  - destruct (is_open i s); split; reflexivity.
  - case_bool_decide; [|split; reflexivity].
    destruct (on_provider_change_frame (with_providerValue p s))
      as (H1 & _ & _ & _ & H2 & _).
    split; assumption.
Qed.

(** With clicks from enabled buttons only, the run button is disabled while
    a start is in flight or a stream is open, and at most one start is in
    flight: on the page itself no start meets an open stream. *)
Lemma on_page_run_guard n s :
  on_page n s ->
  (n <= 1)%nat
  /\ (n = 1%nat -> runDisabled s = true)
  /\ (forall i, is_open i s = true -> runDisabled s = true /\ n = 0%nat).
Proof.
  induction 1 as [store|n s r Hpage IH|n s a Hpage IH Hnr Hen].
  - split; [lia|]. split; [lia|]. intros i Ho.
    rewrite init_none_open in Ho. discriminate.
  - destruct IH as (Hle & Hbusy & Hopen).
    assert (Hn : n = 0%nat) by lia. subst n.
    assert (Hrun : runDisabled s = true) by (apply Hbusy; reflexivity).
    assert (Hnone : forall i, is_open i s = false).
    { intros i. destruct (is_open i s) eqn:Ho; [|reflexivity].
      destruct (Hopen i Ho) as [_ Hz]. discriminate. }
    split; [lia|]. split; [lia|]. intros i Ho. split; [|reflexivity].
    cbn [step] in *.
    destruct (run_response_cases r s)
      as [(id & _ & Hrr)|[(s' & Hrr & Hs & _)|(e & Hrr)]];
      rewrite Hrr in *; cbn [state_after] in *.
    + set (s1 := with_stopDisabled false (with_taskId id s)) in *.
      destruct (ToString id) as [u|e] eqn:Hid.
      * destruct (connectEvents_returned id u s1 Hid)
          as (s' & Hc & _ & _ & _ & _ & _ & Hb & _).
        rewrite Hc. cbn [state_after]. rewrite Hb. exact Hrun.
      * rewrite (connectEvents_thrown id e s1 Hid). cbn [state_after].
        rewrite (proj1 (proj2 (proj2 (proj2 (proj2 (close_current_fields s1)))))).
        exact Hrun.
    + rewrite (is_open_frame i s s' Hs), Hnone in Ho. discriminate.
    + exact Hrun.
  - destruct IH as (Hle & Hbusy & Hopen).
    destruct a; try (
      destruct (step_run_button _ s Hnr ltac:(discriminate) ltac:(discriminate))
        as [Hs Hb];
      cbn [requests_task]; split; [exact Hle|]; split;
      [ intros Hn; rewrite Hb; apply Hbusy, Hn
      | intros j Hj; rewrite Hb; apply (Hopen j);
        rewrite <- (is_open_frame j s _ Hs); exact Hj ]).
    + (* the run button *)
      cbn [enabled] in Hen. apply negb_true_iff in Hen.
      assert (Hn : n = 0%nat).
      { destruct n as [|n]; [reflexivity|]. assert (n = 0%nat) by lia. subst.
        rewrite Hbusy in Hen by reflexivity. discriminate. }
      subst n.
      assert (Hnone : forall i, is_open i s = false).
      { intros i. destruct (is_open i s) eqn:Ho; [|reflexivity].
        destruct (Hopen i Ho) as [Hd _]. congruence. }
      cbn [requests_task step].
      destruct (run_click_frame s) as [Hs _].
      assert (Hclosed : forall i, is_open i (run_click s) = false).
      { intros i. rewrite (is_open_frame i s _ Hs). apply Hnone. }
      destruct (nonempty (trim (promptValue s))) eqn:Hp.
      * split; [lia|]. split.
        -- intros _. apply nonempty_true in Hp.
           apply (run_click_accepted s Hp).
        -- intros i Ho. rewrite Hclosed in Ho. discriminate.
      * split; [lia|]. split; [lia|].
        intros i Ho. rewrite Hclosed in Ho. discriminate.
    + (* an event of the stream *)
      cbn [requests_task step]. split; [exact Hle|].
      destruct (is_open i s) eqn:Hi.
      * destruct (Hopen i Hi) as [Hrun Hn]. subst n.
        split; [lia|]. intros j Ho.
        destruct (listener k d s) as [s'|e] eqn:Hl; cbn [settle] in *.
        -- destruct (listener_run_button k d s s' j
                       (reachable_single_active _ (on_page_reachable _ _ Hpage)) Hl)
             as [[Hs Hb]|Hclosed].
           ++ split; [|reflexivity]. rewrite Hb. exact Hrun.
           ++ congruence.
        -- split; [exact Hrun | reflexivity].
      * split; [exact Hbusy | exact Hopen].
Qed.

(** So a click on the run button that the page delivers finds every
    subscription closed. *)
Lemma on_page_start_finds_no_stream n s :
  on_page n s -> enabled RunClick s = true -> open_sources s = [].
Proof.
  intros Hpage Hen. apply open_sources_nil. intros i.
  destruct (is_open i s) eqn:Ho; [|reflexivity].
  destruct (on_page_run_guard n s Hpage) as (_ & _ & Hopen).
  destruct (Hopen i Ho) as [Hrun _].
  cbn [enabled] in Hen. rewrite Hrun in Hen. discriminate.
Qed.

(** ** The stored identifier and the open stream *)

Lemma run_response_open r s i :
  single_active s ->
  is_open i (state_after (run_response r s)) = true ->
  (is_open i s = true
   /\ taskId (state_after (run_response r s)) = taskId s
   /\ sources (state_after (run_response r s)) = sources s)
  \/ exists u,
       ToString (taskId (state_after (run_response r s))) = Ok u
       /\ sources (state_after (run_response r s)) !! i
          = Some {| es_url := events_url u; es_closed := false |}.
Proof.
  intros Hinv.
  destruct (run_response_cases r s) as [(id & _ & ->)|[(s' & -> & Hs & _ & Hid & _)|(e & ->)]].
  - set (s1 := with_stopDisabled false (with_taskId id s)).
    assert (Hinv1 : single_active s1) by exact (single_active_frame s s1 eq_refl eq_refl Hinv).
    destruct (ToString id) as [u|e] eqn:Hid.
    + destruct (connectEvents_returned id u s1 Hid) as (s' & -> & Hsrc & Hcur & Ht & _).
      cbn [state_after]. intros Ho. right. exists u.
      split; [rewrite Ht; exact Hid|].
      pose proof (opened_single_active s1 s' _ Hinv1 Hsrc Hcur i Ho) as Hi.
      rewrite Hcur in Hi. injection Hi as <-.
      rewrite Hsrc, lookup_app_r by (rewrite close_current_length; reflexivity).
      rewrite close_current_length.
      change (length (sources s1)) with (length (sources s)).
      rewrite Nat.sub_diag. reflexivity.
    + rewrite (connectEvents_thrown id e s1 Hid). cbn [state_after].
      rewrite (close_current_all_closed s1 i Hinv1). discriminate.
  - cbn [state_after]. intros Ho. left.
    rewrite (is_open_frame i s s' Hs) in Ho. repeat split; assumption.
  - cbn [state_after]. intros Ho. left. repeat split; assumption.
Qed.

(** Steps other than a response leave the identifier alone and open no
    subscription. *)
Lemma step_open a s i :
  (forall r, a <> RunResponse r) -> single_active s ->
  is_open i (step a s) = true ->
  is_open i s = true /\ taskId (step a s) = taskId s
  /\ sources (step a s) !! i = sources s !! i.
Proof.
  intros Hr Hinv.
  assert (Hframe : forall s', sources s' = sources s -> taskId s' = taskId s ->
                   is_open i s' = true ->
                   is_open i s = true /\ taskId s' = taskId s
                   /\ sources s' !! i = sources s !! i).
  { intros s' Hs Hid Ho. rewrite (is_open_frame i s _ Hs) in Ho. rewrite Hs. auto. }
  destruct a; try (apply Hframe; reflexivity).
  - apply Hframe; apply run_click_frame.
  - destruct (Hr r eq_refl).
  - apply Hframe; apply confirm_click_frame.
  - apply Hframe; apply stop_click_frame.
  - cbn [step]. destruct (is_open i0 s) eqn:Hi0; [|auto].
    destruct (listener k d s) as [s'|e] eqn:Hl; [|auto]. cbn [settle].
    destruct (listener_returns k d s s' Hl)
      as (data & s0 & _ & Hs' & Hsrc & Hcur & Hid & _).
    destruct Hs' as [(-> & _)|(_ & _ & -> & _)].
    + intros Ho. rewrite (is_open_frame i s s0 Hsrc) in Ho. rewrite Hsrc. auto.
    + rewrite (close_current_all_closed s0 i (single_active_frame _ _ Hsrc Hcur Hinv)).
      discriminate.
  - cbn [step]. destruct (is_open i0 s); apply Hframe; reflexivity.
  - cbn [step]. case_bool_decide; apply Hframe; reflexivity.
  - cbn [step]. case_bool_decide; [|auto].
    destruct (on_provider_change_frame (with_providerValue p s)) as (H1 & _ & H2 & _).
    apply Hframe; assumption.
  - cbn [step]. case_bool_decide; apply Hframe; reflexivity.
Qed.

(** An open subscription is the one of the stored identifier, which
    therefore has a text. *)
Lemma open_stream_task_text s i :
  reachable s -> is_open i s = true ->
  exists u,
    ToString (taskId s) = Ok u
    /\ sources s !! i = Some {| es_url := events_url u; es_closed := false |}.
Proof.
  intros (store & acts & ->). revert i.
  induction acts as [|a acts IH] using rev_ind; intros i Ho.
  - change (run [] (init store)) with (init store) in Ho.
    rewrite init_none_open in Ho. discriminate.
  - unfold run in *. rewrite List.fold_left_app in *. cbn [List.fold_left] in *.
    set (s := List.fold_left (fun s a => step a s) acts (init store)) in *.
    assert (Hinv : single_active s) by (apply run_single_active, init_single_active).
    destruct a;
      try (match type of Ho with
           | is_open _ (step ?a _) = _ =>
               destruct (step_open a s i ltac:(discriminate) Hinv Ho) as (Ho' & -> & ->)
           end;
           exact (IH i Ho')).
    cbn [step] in *.
    destruct (run_response_open r s i Hinv Ho) as [(Ho' & -> & ->)|H]; [|exact H].
    exact (IH i Ho').
Qed.

Lemma ToString_to_string v u : ToString v = Ok u -> to_string v = u.
Proof. intros H. unfold to_string. rewrite H. reflexivity. Qed.

(** With clicks from enabled buttons only, an enabled confirm button means
    an open stream: the confirm handler is reached with an identifier that
    has a text, the one in the address of the stream. *)
Lemma on_page_confirm_guard n s :
  on_page n s -> confirmDisabled s = false -> exists i, is_open i s = true.
Proof.
  induction 1 as [store|n s r Hpage IH|n s a Hpage IH Hnr Hen]; intros Hc.
  - discriminate Hc.
  - exfalso.
    destruct (on_page_run_guard _ _ Hpage) as (_ & _ & Hopen).
    assert (Hcs : confirmDisabled s = false).
    { revert Hc. cbn [step].
      destruct (run_response_cases r s)
        as [(id & _ & ->)|[(s' & -> & _ & _ & _ & _ & _ & Hcd)|(e & ->)]];
        cbn [state_after]; [|congruence|auto].
      set (s1 := with_stopDisabled false (with_taskId id s)).
      change (confirmDisabled s) with (confirmDisabled s1).
      destruct (ToString id) as [u|e] eqn:Hid.
      - destruct (connectEvents_returned id u s1 Hid)
          as (s' & -> & _ & _ & _ & _ & _ & _ & Hcd & _).
        cbn [state_after]. congruence.
      - rewrite (connectEvents_thrown id e s1 Hid). cbn [state_after].
        rewrite (proj1 (proj2 (proj2 (close_current_fields s1)))). auto. }
    destruct (IH Hcs) as [i Ho]. destruct (Hopen i Ho) as [_ Hz]. discriminate.
  - assert (Hkeep : forall s', sources s' = sources s ->
                    confirmDisabled s' = confirmDisabled s ->
                    confirmDisabled s' = false -> exists i, is_open i s' = true).
    { intros s' Hs Hcd Hc'. rewrite Hcd in Hc'. destruct (IH Hc') as [i Ho]. exists i.
      rewrite (is_open_frame i s _ Hs). exact Ho. }
    revert Hc.
    destruct a; try (apply Hkeep; reflexivity).
    + cbn [step]. unfold run_click.
      destruct (negb _); [apply Hkeep; reflexivity | discriminate].
    + destruct (Hnr r eq_refl).
    + intros _. cbn [enabled] in Hen. apply negb_true_iff in Hen.
      destruct (IH Hen) as [i Ho]. exists i. cbn [step].
      rewrite (is_open_frame i s _ (proj1 (confirm_click_frame s))). exact Ho.
    + apply Hkeep; apply stop_click_frame.
    + cbn [step]. destruct (is_open i s) eqn:Hi; [|exact IH].
      destruct (listener k d s) as [s'|e] eqn:Hl; cbn [settle]; [|exact IH].
      destruct (listener_returns k d s s' Hl)
        as (data & s0 & _ & Hs' & Hsrc & _).
      destruct Hs' as [(-> & _)|(_ & _ & -> & Hcd & _)].
      * intros _. exists i. rewrite (is_open_frame i s s0 Hsrc). exact Hi.
      * rewrite (proj1 (proj2 (proj2 (close_current_fields s0)))), Hcd. discriminate.
    + cbn [step]. destruct (is_open i s); apply Hkeep; reflexivity.
    + cbn [step]. case_bool_decide; apply Hkeep; reflexivity.
    + cbn [step]. case_bool_decide; [|apply Hkeep; reflexivity].
      destruct (on_provider_change_frame (with_providerValue p s))
        as (H1 & _ & _ & _ & _ & H2).
      apply Hkeep; assumption.
    + cbn [step]. case_bool_decide; apply Hkeep; reflexivity.
Qed.

Lemma on_page_confirm_text n s :
  on_page n s -> enabled ConfirmClick s = true ->
  ToString (taskId s) = Ok (to_string (taskId s)).
Proof.
  intros Hpage Hen. cbn [enabled] in Hen. apply negb_true_iff in Hen.
  destruct (on_page_confirm_guard n s Hpage Hen) as [i Ho].
  destruct (open_stream_task_text s i (on_page_reachable _ _ Hpage) Ho) as (u & Hu & _).
  rewrite (ToString_to_string _ _ Hu). exact Hu.
Qed.

(** ** The doubles against the library

    [nearest] rounds as the operations of [SpecFloat] do. *)
Lemma nearest_as_SpecFloat :
  forallb (fun n => same (integer n) (binary_normalize 53 1024 n 0 false))
    ([0; 1; 7; 1000; 1200; 61234; 2 ^ 53 - 1; 2 ^ 53; 2 ^ 53 + 1; 2 ^ 60 + 1; 10 ^ 21; 10 ^ 24;
      10 ^ 308; 2 ^ 1024 - 2 ^ 970 - 1; 2 ^ 1024 - 2 ^ 970; 2 ^ 1024]%Z
     ++ seqZ 990 20)
  && forallb (fun n => same (div (integer n) (integer 1000))
                         (SFdiv 53 1024 (binary_normalize 53 1024 n 0 false)
                            (binary_normalize 53 1024 1000 0 false)))
       ([1; 7; 999; 61234; 2 ^ 53 - 1; 2 ^ 53 + 2; 10 ^ 21; 10 ^ 24; 10 ^ 308]%Z
        ++ seqZ 1000 300)
  && forallb (fun '(s, j) =>
                same (decimal s (- j))
                  (SFdiv 53 1024 (S754_finite false (Z.to_pos s) 0)
                     (S754_finite false (Z.to_pos (10 ^ j)) 0)))
       [ (1, 1); (5, 1); (15005, 1); (99995, 2); (435, 2); (1, 7); (12345, 9);
         (30000000000000004, 17); (5, 324); (3, 324); (2, 324);
         (22250738585072014, 324); (22250738585072011, 324) ]%Z
  = true.
Proof. vm_compute. reflexivity. Qed.
